(** * Subtitle_Match: a shallow embedding of [Matching_app.py]

    The development follows the script from top to bottom: the language
    filter of [parse_srt_to_df], the session state, the manual pair
    builder, the shift of the Korean track and the automatic matching
    (sort, nearest-time merge, reconciliation of the unmatched rows).

    Conventions.
    - A Python [str] is a list of Unicode code points ([pystr]).
    - A [Timedelta] is its integer count of nanoseconds, as pandas 2
      stores every Timedelta column of the script; the tolerance of the
      merge is one second, [10^9] ns. Times are taken within what an int64
      count of nanoseconds holds.
    - A [DataFrame] is the list of its rows in positional order; the
      frames of the script all carry a fresh [RangeIndex], so a label is a
      position.
    - The pandas primitives the script calls ([iloc], [sort_values],
      [merge_asof], [isin], [unique], [concat], [to_csv]) are written out
      as list programs; [merge_asof] follows the two ordered scans and the
      nearest choice of pandas' [_libs/join.pyx]. *)

From Stdlib Require Import ZArith Bool Lia String Ascii List.
From Stdlib Require Import Sorting.Sorted Sorting.Permutation.
Import ListNotations.
Open Scope Z_scope.

(** ** Python values *)

Definition codepoint := Z.
Definition pystr := list codepoint.

(** An ASCII literal as a Python string (used to write examples). *)
Definition py (s : string) : pystr :=
  map (fun a => Z.of_N (N_of_ascii a)) (list_ascii_of_string s).

(** [text.replace('\n', ' ')] *)
Definition replace_newline (text : pystr) : pystr :=
  map (fun c => if c =? 10 then 32 else c) text.

(** The character class [[가-힣]]: the Hangul syllables block. *)
Definition in_hangul_class (c : codepoint) : bool :=
  (44032 <=? c) && (c <=? 55203).

(** [bool(re.search(r'[가-힣]', text))]: the scan of [re.search]
    for a one-character class, left to right. *)
Fixpoint re_search_hangul (text : pystr) : bool :=
  match text with
  | [] => false
  | c :: rest => if in_hangul_class c then true else re_search_hangul rest
  end.

(** The exceptions the script can raise. *)
Inductive PyExc : Type :=
  | SyntaxError
  | TypeError
  | IndexError
  | ValueError
  | OverflowError
  | KeyError.

(** A computation that returns or raises. *)
Definition result (A : Type) : Type := (PyExc + A)%type.

Definition ret {A} (a : A) : result A := inr a.
Definition raise {A} (e : PyExc) : result A := inl e.
Definition bind {A B} (m : result A) (k : A -> result B) : result B :=
  match m with
  | inl e => inl e
  | inr a => k a
  end.

Declare Scope py_scope.
Delimit Scope py_scope with py.
Notation "x <- m ;; k" := (bind m (fun x => k))
  (at level 61, m at next level, right associativity) : py_scope.

(** ** Data model *)

Definition Timedelta := Z.

(** One row of the frames built by [parse_srt_to_df]: the columns
    [start_time], [end_time] and [text]. *)
Record Row : Type := mkRow {
  start_time : Timedelta;
  end_time : Timedelta;
  text : pystr
}.

Definition DataFrame := list Row.

(** An item of the parsed SRT file: [sub.start], [sub.end] (in
    milliseconds, the ordinal of a [SubRipTime]) and [sub.text]. *)
Record SubRipItem : Type := mkSub {
  sub_start : Z;
  sub_end : Z;
  sub_text : pystr
}.

(** [fmt] writes a time as HH:MM:SS.mmm and [pd.to_timedelta] reads it
    back: a millisecond count becomes a nanosecond count. This is the
    conversion for the times an int64 count of nanoseconds holds, up to
    2562047:47:16.854 ([representable_ms]); beyond, pandas does not keep the
    value and the model does not follow it. *)
Definition to_timedelta_ms (ms : Z) : Timedelta := ms * 1000000.

(** The largest millisecond count whose nanoseconds fit an int64. *)
Definition max_timedelta_ms : Z := 9223372036854.

(** A time of an SRT item that [pd.to_timedelta] keeps. *)
Definition representable_ms (ms : Z) : Prop := 0 <= ms <= max_timedelta_ms.

(** ** [parse_srt_to_df]: the loop over [subs] with its two [continue]s *)

Definition row_of_sub (sub : SubRipItem) : Row :=
  {| start_time := to_timedelta_ms (sub_start sub);
     end_time := to_timedelta_ms (sub_end sub);
     text := replace_newline (sub_text sub) |}.

Fixpoint parse_loop (lang : string) (subs : list SubRipItem) (rows : list Row)
  : list Row :=
  match subs with
  | [] => rows
  | sub :: rest =>
      let text := replace_newline (sub_text sub) in
      let has_kor := re_search_hangul text in
      if String.eqb lang "en" && has_kor then parse_loop lang rest rows
      else if String.eqb lang "ko" && negb has_kor then parse_loop lang rest rows
      else parse_loop lang rest (rows ++ [row_of_sub sub])
  end.

Definition parse_srt_to_df (subs : list SubRipItem) (lang : string) : DataFrame :=
  parse_loop lang subs [].

(** The text contains a code point of the secondary script's block. *)
Definition contains_secondary (text : pystr) : Prop :=
  exists c, In c text /\ 44032 <= c <= 55203.

(** ** Manual matching: [Show manual match] *)

(** The value of [ast.literal_eval] on the text of an index field, by what
    [list(...)] makes of it:
    - [LitSeq items]: a value [list] iterates into the integers [items], a
      tuple or a list such as [(2,4,6)], and also a set or the keys of a
      dict;
    - [LitBoolSeq mask]: a value [list] iterates into the booleans [mask],
      at least one of them, such as [(True, False)];
    - [LitScalar]: a value [list] cannot iterate, a bare integer such as
      [3] or [(3)], a float, [None].
    Iterables that hold floats, strings or a mixture are outside this
    model. *)
Inductive PyLiteral : Type :=
  | LitSeq (items : list Z)
  | LitBoolSeq (mask : list bool)
  | LitScalar.

(** The list handed to [iloc]: numpy reads it as an array of integers or
    as an array of booleans. *)
Inductive Indexer : Type :=
  | IntIndexer (idx : list Z)
  | BoolIndexer (mask : list bool).

(** [list(v)]: a [TypeError] on a value that is not iterable. *)
Definition py_list (v : PyLiteral) : result Indexer :=
  match v with
  | LitSeq items => ret (IntIndexer items)
  | LitBoolSeq mask => ret (BoolIndexer mask)
  | LitScalar => raise TypeError
  end.

Definition len {A} (l : list A) : Z := Z.of_nat (length l).

(** The integer converts to a C long when the indices are made a
    machine-word array; beyond, the conversion raises. *)
Definition fits_c_long (i : Z) : bool :=
  (- 9223372036854775808 <=? i) && (i <? 18446744073709551616).

(** Positional access with Python's convention: [-1] is the last row. *)
Definition iloc_pos (n i : Z) : Z := if i <? 0 then i + n else i.

(** [df.iloc[idx]] for a list of integers: the rows in the order of the
    list when every index [i] has [-n <= i < n]. Otherwise pandas raises:
    [OverflowError] when an index does not convert to a C long, else
    [IndexError] ("positional indexers are out-of-bounds"). A frame has
    fewer rows than a C long counts, so an index within [-n <= i < n]
    always converts. *)
Definition iloc (df : DataFrame) (idx : list Z) : result DataFrame :=
  let n := len df in
  if forallb (fun i => (- n <=? i) && (i <? n)) idx
  then ret (map (fun i => nth (Z.to_nat (iloc_pos n i)) df (mkRow 0 0 [])) idx)
  else if forallb fits_c_long idx then raise IndexError
  else raise OverflowError.

(** [df.iloc[mask]] for a list of booleans: a row mask, which must be as
    long as the frame ([IndexError], "Boolean index has wrong length",
    otherwise). *)
Definition iloc_mask (df : DataFrame) (mask : list bool) : result DataFrame :=
  match mask with
  | [] => ret []
  | _ :: _ =>
      if Nat.eqb (length mask) (length df)
      then ret (map snd (filter fst (combine mask df)))
      else raise IndexError
  end.

Definition iloc_indexer (df : DataFrame) (ix : Indexer) : result DataFrame :=
  match ix with
  | IntIndexer idx => iloc df idx
  | BoolIndexer mask => iloc_mask df mask
  end.

(** A row of the manual table. The script shows the three times through
    [str]; the model keeps the [Timedelta] that is printed. *)
Record ManualPair : Type := mkManualPair {
  start_time_ENG : Timedelta;
  ENG_text : pystr;
  start_time_KOR : Timedelta;
  KOR_text : pystr;
  interval : Timedelta
}.

(** The [for e, k in zip(...)] loop appending to [combined]. *)
Fixpoint zip_loop (sel_eng sel_kor : list Row) (combined : list ManualPair)
  : list ManualPair :=
  match sel_eng, sel_kor with
  | e :: es, k :: ks =>
      let interval := start_time k - start_time e in
      zip_loop es ks
        (combined ++ [ {| start_time_ENG := start_time e;
                          ENG_text := text e;
                          start_time_KOR := start_time k;
                          KOR_text := text k;
                          interval := interval |} ])
  | _, _ => combined
  end.

(** The body of the [try]: the two fields are given as the outcome of
    [ast.literal_eval] on their text (a [SyntaxError] or [ValueError] for
    text that is not a literal). *)
Definition manual_match_body (eng_df kor_df : DataFrame)
    (eng_lit kor_lit : result PyLiteral) : result (list ManualPair) :=
  (eng_v <- eng_lit ;;
   eng_idx <- py_list eng_v ;;
   kor_v <- kor_lit ;;
   kor_idx <- py_list kor_v ;;
   sel_eng <- iloc_indexer eng_df eng_idx ;;
   sel_kor <- iloc_indexer kor_df kor_idx ;;
   ret (zip_loop sel_eng sel_kor []))%py.

(** What the button shows: the table, or the message of [st.error]. *)
Inductive Shown : Type :=
  | Table (combined : list ManualPair)
  | ErrorMessage (e : PyExc).

Definition show_manual_match (eng_df kor_df : DataFrame)
    (eng_lit kor_lit : result PyLiteral) : Shown :=
  match manual_match_body eng_df kor_df eng_lit kor_lit with
  | inr combined => Table combined
  | inl e => ErrorMessage e
  end.

(** ** The shift: [Apply shift] *)

(** A row of the final frame: [Eng_text] and [Kor_text]; a missing
    [Kor_text] (NaN) is [None]. *)
Definition FinalRow := (pystr * option pystr)%type.

(** The part of [st.session_state] the script uses. [eng_df] and [kor_df]
    are rebuilt from the uploaded files at every run of the script. *)
Record Session : Type := mkSession {
  eng_df : DataFrame;
  kor_df : DataFrame;
  kor_shifted : option DataFrame;
  matched : option (list FinalRow)
}.

(** [k2 = kor_df.copy(); k2['start_time'] -= pd.to_timedelta(shift_sec)]:
    [shift] is the offset as a [Timedelta]. *)
Definition shift_start (shift : Timedelta) (r : Row) : Row :=
  {| start_time := start_time r - shift;
     end_time := end_time r;
     text := text r |}.

Definition shifted (df : DataFrame) (shift : Timedelta) : DataFrame :=
  map (shift_start shift) df.

Definition apply_shift (st : Session) (shift : Timedelta) : Session :=
  let k2 := shifted (kor_df st) shift in
  {| eng_df := eng_df st;
     kor_df := kor_df st;
     kor_shifted := Some k2;
     matched := matched st |}.

(** A sequence of presses of the button, each with its own offset. *)
Definition apply_shifts (st : Session) (shifts : list Timedelta) : Session :=
  fold_left apply_shift shifts st.

(** ** Automatic matching: [Run automatic matching] *)

(** [df.sort_values('start_time').reset_index(drop=True)]: ascending in
    the key. The sort sees the key column only. Among rows of equal key
    pandas' default kind promises no order (past sixteen rows its quicksort
    can exchange them), and the model keeps them in the order they came
    in: what is proved of the sorted frames is either true of every
    ascending arrangement or stated for tracks without equal start
    times. *)
Fixpoint insert_sorted (r : Row) (sorted : list Row) : list Row :=
  match sorted with
  | [] => [r]
  | h :: t =>
      if start_time r <=? start_time h then r :: h :: t
      else h :: insert_sorted r t
  end.

Fixpoint sort_values (df : DataFrame) : DataFrame :=
  match df with
  | [] => []
  | r :: rest => insert_sorted r (sort_values rest)
  end.

(** Array access [values[pos]]. *)
Definition get (values : list Z) (pos : Z) : Z := nth (Z.to_nat pos) values 0.

(** The inner [while] of the backward scan:
    [while right_pos < right_size and right_values[right_pos] <= x]. *)
Fixpoint backward_while (fuel : nat) (right_values : list Z) (x : Z)
    (right_pos : Z) : Z :=
  match fuel with
  | O => right_pos
  | S fuel' =>
      if (right_pos <? len right_values) && (get right_values right_pos <=? x)
      then backward_while fuel' right_values x (right_pos + 1)
      else right_pos
  end.

(** [asof_join_backward]: for each left value, in ascending order, the
    last position of the right array whose value is [<=] it, [-1] when
    there is none or when the tolerance is not met. The left indexer of
    pandas is the identity and is left implicit. *)
Fixpoint backward_loop (left_values right_values : list Z) (tolerance : Z)
    (right_pos : Z) : list Z :=
  match left_values with
  | [] => []
  | x :: rest =>
      let right_pos := if right_pos <? 0 then 0 else right_pos in
      let right_pos :=
        backward_while (length right_values) right_values x right_pos in
      let right_pos := right_pos - 1 in
      let found_right_pos := right_pos in
      let idx :=
        if negb (found_right_pos =? -1)
           && (x - get right_values found_right_pos >? tolerance)
        then -1 else found_right_pos in
      idx :: backward_loop rest right_values tolerance right_pos
  end.

Definition asof_join_backward (left_values right_values : list Z)
    (tolerance : Z) : list Z :=
  backward_loop left_values right_values tolerance 0.

(** The inner [while] of the forward scan:
    [while right_pos >= 0 and right_values[right_pos] >= x]. *)
Fixpoint forward_while (fuel : nat) (right_values : list Z) (x : Z)
    (right_pos : Z) : Z :=
  match fuel with
  | O => right_pos
  | S fuel' =>
      if (0 <=? right_pos) && (x <=? get right_values right_pos)
      then forward_while fuel' right_values x (right_pos - 1)
      else right_pos
  end.

(** [asof_join_forward] walks the left array from its last position down;
    [rev_left] is the left array reversed and the indexer comes out
    reversed too. *)
Fixpoint forward_loop (rev_left right_values : list Z) (tolerance : Z)
    (right_pos : Z) : list Z :=
  match rev_left with
  | [] => []
  | x :: rest =>
      let right_size := len right_values in
      let right_pos :=
        if right_pos =? right_size then right_size - 1 else right_pos in
      let right_pos :=
        forward_while (length right_values) right_values x right_pos in
      let right_pos := right_pos + 1 in
      let found_right_pos :=
        if right_pos =? right_size then -1 else right_pos in
      let idx :=
        if negb (found_right_pos =? -1)
           && (get right_values found_right_pos - x >? tolerance)
        then -1 else found_right_pos in
      idx :: forward_loop rest right_values tolerance right_pos
  end.

Definition asof_join_forward (left_values right_values : list Z)
    (tolerance : Z) : list Z :=
  rev (forward_loop (rev left_values) right_values tolerance
         (len right_values - 1)).

(** The choice of [asof_join_nearest] at one left position: the backward
    candidate wins when [bdiff <= fdiff]. *)
Definition nearest_choice (right_values : list Z) (x bri fri : Z) : Z :=
  if negb (bri =? -1) && negb (fri =? -1) then
    let bdiff := x - get right_values bri in
    let fdiff := get right_values fri - x in
    if bdiff <=? fdiff then bri else fri
  else if negb (bri =? -1) then bri else fri.

Fixpoint nearest_loop (left_values right_values bri fri : list Z) : list Z :=
  match left_values, bri, fri with
  | x :: xs, b :: bs, f :: fs =>
      nearest_choice right_values x b f :: nearest_loop xs right_values bs fs
  | _, _, _ => []
  end.

Definition asof_join_nearest (left_values right_values : list Z)
    (tolerance : Z) : list Z :=
  let bri := asof_join_backward left_values right_values tolerance in
  let fri := asof_join_forward left_values right_values tolerance in
  nearest_loop left_values right_values bri fri.

(** [Index(values).is_monotonic_increasing] *)
Fixpoint is_monotonic_increasing (values : list Z) : bool :=
  match values with
  | [] => true
  | x :: rest =>
      match rest with
      | [] => true
      | y :: _ => (x <=? y) && is_monotonic_increasing rest
      end
  end.

(** A row of [matched]: the left row and, when the right indexer is not
    [-1], the right row; the right columns are missing otherwise. *)
Record MergedRow : Type := mkMerged {
  m_start_time_ENG : Timedelta;
  m_end_time_x : Timedelta;
  m_Eng_text : pystr;
  m_start_time_KOR : option Timedelta;
  m_end_time_y : option Timedelta;
  m_Kor_text : option pystr
}.

(** The take of the right frame with [-1] filling in a missing row. *)
Definition take_right (right : DataFrame) (pos : Z) : option Row :=
  if pos =? -1 then None else nth_error right (Z.to_nat pos).

Definition merged_row (right : DataFrame) (l : Row) (pos : Z) : MergedRow :=
  let r := take_right right pos in
  {| m_start_time_ENG := start_time l;
     m_end_time_x := end_time l;
     m_Eng_text := text l;
     m_start_time_KOR := option_map start_time r;
     m_end_time_y := option_map end_time r;
     m_Kor_text := option_map text r |}.

(** [pd.merge_asof(left, right, left_on, right_on, direction='nearest',
    tolerance)]: a [ValueError] when a key column is not sorted. *)
Definition merge_asof (left right : DataFrame) (tolerance : Z)
  : result (list MergedRow) :=
  let left_values := map start_time left in
  let right_values := map start_time right in
  if negb (is_monotonic_increasing left_values) then raise ValueError
  else if negb (is_monotonic_increasing right_values) then raise ValueError
  else
    let right_indexer := asof_join_nearest left_values right_values tolerance in
    ret (map (fun lp => merged_row right (fst lp) (snd lp))
             (combine left right_indexer)).

(** [pd.Timedelta(seconds=1)] *)
Definition tolerance_1s : Timedelta := 1000000000.

(** [series.dropna()] *)
Fixpoint dropna {A} (col : list (option A)) : list A :=
  match col with
  | [] => []
  | Some v :: rest => v :: dropna rest
  | None :: rest => dropna rest
  end.

(** [values.isin(...)] on one value. *)
Definition isin (v : Z) (values : list Z) : bool :=
  existsb (fun w => v =? w) values.

(** [series.unique()]: the distinct values in order of first appearance. *)
Fixpoint unique_loop (values seen : list Z) : list Z :=
  match values with
  | [] => seen
  | v :: rest =>
      if isin v seen then unique_loop rest seen
      else unique_loop rest (seen ++ [v])
  end.

Definition unique (values : list Z) : list Z := unique_loop values [].

(** [RangeIndex(n)] *)
Definition RangeIndex (n : nat) : list Z := map Z.of_nat (seq 0 n).

(** A [Series]: labels with their values. *)
Definition Series (A : Type) := list (Z * A).

(** [k2.loc[~k2['start_time_KOR'].isin(times), 'Kor_text']] *)
Definition loc_not_isin (k2 : DataFrame) (times : list Z) : Series pystr :=
  map (fun lr => (fst lr, text (snd lr)))
      (filter (fun lr => negb (isin (start_time (snd lr)) times))
              (combine (RangeIndex (length k2)) k2)).

(** The frames of one run of the matching, kept together. *)
Record MatchRun : Type := mkRun {
  run_e2 : DataFrame;
  run_k2 : DataFrame;
  run_matched : list MergedRow;
  run_matched_pairs : list FinalRow;
  run_matched_kor_times : list Timedelta;
  run_unmatched_kor : Series pystr;
  run_final : list FinalRow
}.

Definition automatic_matching (eng_df kor_shifted : DataFrame) : result MatchRun :=
  let e2 := sort_values eng_df in
  let k2 := sort_values kor_shifted in
  (matched <- merge_asof e2 k2 tolerance_1s ;;
   let matched_pairs := map (fun m => (m_Eng_text m, m_Kor_text m)) matched in
   let matched_kor_times := unique (dropna (map m_start_time_KOR matched)) in
   let unmatched_kor := loc_not_isin k2 matched_kor_times in
   let unmatched_kor_df :=
     combine (repeat ([] : pystr) (length unmatched_kor))
             (map (fun lv => Some (snd lv)) unmatched_kor) in
   let final := matched_pairs ++ unmatched_kor_df in
   ret {| run_e2 := e2;
          run_k2 := k2;
          run_matched := matched;
          run_matched_pairs := matched_pairs;
          run_matched_kor_times := matched_kor_times;
          run_unmatched_kor := unmatched_kor;
          run_final := final |})%py.

(** The button: it is offered only once [kor_shifted] is in the session. *)
Definition run_automatic_matching (st : Session) : result Session :=
  match kor_shifted st with
  | None => ret st
  | Some ks =>
      (run <- automatic_matching (eng_df st) ks ;;
       ret {| eng_df := eng_df st;
              kor_df := kor_df st;
              kor_shifted := kor_shifted st;
              matched := Some (run_final run) |})%py
  end.

(** [final.to_csv(..., index=False)] as records: the header, then one
    record per row, a missing value written as the empty field. *)
Definition csv_field (v : option pystr) : pystr :=
  match v with
  | Some s => s
  | None => []
  end.

Definition to_csv (final : list FinalRow) : list (pystr * pystr) :=
  (py "Eng_text", py "Kor_text")
    :: map (fun row => (fst row, csv_field (snd row))) final.

(** The right indexer of a run, recomputed from its sorted frames. *)
Definition right_indexer (run : MatchRun) : list Z :=
  asof_join_nearest (map start_time (run_e2 run)) (map start_time (run_k2 run))
    tolerance_1s.

(** ** Predicates used to state the properties *)

(** The items a language keeps, as a predicate on an item. *)
Definition keeps (lang : string) (sub : SubRipItem) : bool :=
  let has_kor := re_search_hangul (replace_newline (sub_text sub)) in
  negb (String.eqb lang "en" && has_kor)
  && negb (String.eqb lang "ko" && negb has_kor).

(** The manual row built from an English and a Korean row. *)
Definition manual_pair (e k : Row) : ManualPair :=
  {| start_time_ENG := start_time e;
     ENG_text := text e;
     start_time_KOR := start_time k;
     KOR_text := text k;
     interval := start_time k - start_time e |}.

(** An index is a position of the track: [0 <= i < n]. *)
Definition in_track_bounds (df : DataFrame) (i : Z) : Prop :=
  0 <= i < len df.




(** The number of values [<= x], and of values [< x], of an array. *)
Definition cnt_le (x : Z) (values : list Z) : Z :=
  len (filter (fun v => v <=? x) values).

Definition cnt_lt (x : Z) (values : list Z) : Z :=
  len (filter (fun v => v <? x) values).

(** What the backward scan leaves at a left value [x] when both arrays are
    sorted: the last position holding a value [<= x], checked against the
    tolerance. *)
Definition backward_at (right_values : list Z) (tolerance x : Z) : Z :=
  let found := cnt_le x right_values - 1 in
  if negb (found =? -1) && (x - get right_values found >? tolerance)
  then -1 else found.

(** The same for the forward scan: the first position holding a value
    [>= x]. *)
Definition forward_at (right_values : list Z) (tolerance x : Z) : Z :=
  let pos := cnt_lt x right_values in
  let found := if pos =? len right_values then -1 else pos in
  if negb (found =? -1) && (get right_values found - x >? tolerance)
  then -1 else found.

Definition nearest_at (right_values : list Z) (tolerance x : Z) : Z :=
  nearest_choice right_values x (backward_at right_values tolerance x)
    (forward_at right_values tolerance x).

(** The distance in time between two rows. *)
Definition distance (c r : Row) : Z := Z.abs (start_time c - start_time r).

(** The tie rule read on a run with no further condition: whenever a
    comparison row is as far from the reference row as the selected one, the
    selected one does not come later. *)
Definition ties_resolve_to_earlier (run : MatchRun) : Prop :=
  forall i r m j c c',
    nth_error (run_e2 run) i = Some r ->
    nth_error (right_indexer run) i = Some m ->
    take_right (run_k2 run) m = Some c ->
    nth_error (run_k2 run) j = Some c' ->
    distance c' r = distance c r ->
    m <= Z.of_nat j.

(** The start time [t] was selected by the matcher: some reference row
    was given a comparison row that starts at [t]. *)
Definition start_selected (run : MatchRun) (t : Timedelta) : Prop :=
  exists i m c,
    nth_error (right_indexer run) i = Some m
    /\ take_right (run_k2 run) m = Some c
    /\ start_time c = t.

(** The positions of the comparison track the matcher selected, each
    listed once. *)
Definition selected_positions (run : MatchRun) : list Z :=
  nodup Z.eq_dec (filter (fun m => negb (m =? -1)) (right_indexer run)).

(** The positions of the comparison track that went to the unmatched
    records: the labels of [unmatched_kor]. *)
Definition unmatched_positions (run : MatchRun) : list Z :=
  map fst (run_unmatched_kor run).

(** The unmatched record of a comparison row. *)
Definition unmatched_record (c : Row) : FinalRow := ([], Some (text c)).

(** The number of comparison rows the matcher never selected, counted by
    position in the sorted comparison track. *)
Definition never_selected_count (run : MatchRun) : nat :=
  length (filter (fun j => negb (existsb (Z.eqb j) (selected_positions run)))
                 (RangeIndex (length (run_k2 run)))).

(** ** The persisted result: one run of the script per press of a button *)

(** The index is one [iloc] accepts: [-n <= i < n]. *)
Definition in_iloc_range (df : DataFrame) (i : Z) : Prop :=
  - len df <= i < len df.

(** The records of [matched_subtitles.csv]. *)
Definition CsvFile := list (pystr * pystr).

(** The session together with the file next to the script; [None] when
    the file does not exist. *)
Record World : Type := mkWorld {
  session : Session;
  csv_on_disk : option CsvFile
}.

Inductive OSError : Type :=
  | FileNotFoundError.

(** What ends a run of the script: nothing catches these. *)
Inductive Uncaught : Type :=
  | UncaughtPy (e : PyExc)
  | UncaughtOS (e : OSError).

(** [os.remove(path)] *)
Definition os_remove (disk : option CsvFile) : OSError + option CsvFile :=
  match disk with
  | None => inl FileNotFoundError
  | Some _ => inr None
  end.

(** [open(path, 'rb')] *)
Definition open_rb (disk : option CsvFile) : OSError + CsvFile :=
  match disk with
  | None => inl FileNotFoundError
  | Some f => inr f
  end.

(** The buttons that change the session or the file. *)
Inductive Click : Type :=
  | ClickApplyShift (shift : Timedelta)
  | ClickRunMatching
  | ClickDelete.

(** Section 8 of the script with the button pressed: the merge, the final
    frame, [to_csv] and the entry [matched]. *)
Definition section_run_matching (w : World) : Uncaught + World :=
  match kor_shifted (session w) with
  | None => inr w
  | Some ks =>
      match automatic_matching (eng_df (session w)) ks with
      | inl e => inl (UncaughtPy e)
      | inr run =>
          let final := run_final run in
          inr {| session := {| eng_df := eng_df (session w);
                               kor_df := kor_df (session w);
                               kor_shifted := kor_shifted (session w);
                               matched := Some final |};
                 csv_on_disk := Some (to_csv final) |}
      end
  end.

(** The delete button: [os.remove] with a missing file passed over, then
    [session_state.pop('matched')]. *)
Definition section_delete (w : World) : World :=
  let disk :=
    match os_remove (csv_on_disk w) with
    | inr d => d
    | inl FileNotFoundError => csv_on_disk w
    end in
  {| session := {| eng_df := eng_df (session w);
                   kor_df := kor_df (session w);
                   kor_shifted := kor_shifted (session w);
                   matched := None |};
     csv_on_disk := disk |}.

(** Section 9: shown only with [matched] in the session; the file is opened
    for the download button before the delete button is looked at. *)
Definition section_download_delete (w : World) (click : Click)
  : Uncaught + World :=
  match matched (session w) with
  | None => inr w
  | Some _ =>
      match open_rb (csv_on_disk w) with
      | inl e => inl (UncaughtOS e)
      | inr _ =>
          match click with
          | ClickDelete => inr (section_delete w)
          | _ => inr w
          end
      end
  end.

(** The part of a run of the script that follows the loading of the two
    tracks (from line 118 on), for the press of one button; the session
    holds the tracks as lines 60-77 stored them. *)
Definition rerun (w : World) (click : Click) : Uncaught + World :=
  let w1 :=
    match click with
    | ClickApplyShift shift =>
        {| session := apply_shift (session w) shift;
           csv_on_disk := csv_on_disk w |}
    | _ => w
    end in
  match (match click with
         | ClickRunMatching => section_run_matching w1
         | _ => inr w1
         end) with
  | inl e => inl e
  | inr w2 => section_download_delete w2 click
  end.

(** A sequence of presses; the first uncaught exception ends it. *)
Fixpoint reruns (w : World) (clicks : list Click) : Uncaught + World :=
  match clicks with
  | [] => inr w
  | click :: rest =>
      match rerun w click with
      | inl e => inl e
      | inr w' => reruns w' rest
      end
  end.





(** Whenever a result is stored in the session, the file holds its CSV. *)
Definition file_matches_session (w : World) : Prop :=
  forall final, matched (session w) = Some final ->
                csv_on_disk w = Some (to_csv final).

(** * Properties *)

(** ** The language filter *)

Section LanguageFilter.

Lemma parse_loop_filter lang subs : forall rows,
  parse_loop lang subs rows
  = rows ++ map row_of_sub (filter (keeps lang) subs).
Proof.
  induction subs as [|sub rest IH]; intros rows; simpl.
  - now rewrite app_nil_r.
  - unfold keeps at 1.
    destruct (String.eqb lang "en" && _) eqn:Een; simpl.
    + apply IH.
    + destruct (String.eqb lang "ko" && _) eqn:Eko; simpl.
      * apply IH.
      * rewrite IH, <- app_assoc. reflexivity.
Qed.

Lemma in_hangul_class_spec c :
  in_hangul_class c = true <-> 44032 <= c <= 55203.
Proof. unfold in_hangul_class. rewrite andb_true_iff, !Z.leb_le. tauto. Qed.

Lemma re_search_hangul_spec t :
  re_search_hangul t = true <-> contains_secondary t.
Proof.
  unfold contains_secondary. induction t as [|c rest IH]; simpl.
  - split; [discriminate | intros (c & [] & _)].
  - destruct (in_hangul_class c) eqn:Ec.
    + split; [intros _ | reflexivity].
      exists c. split; [now left | now apply in_hangul_class_spec].
    + rewrite IH. split.
      * intros (d & Hd & Hr). exists d. split; [now right | exact Hr].
      * intros (d & [<- | Hd] & Hr).
        -- apply in_hangul_class_spec in Hr. congruence.
        -- now exists d.
Qed.

Lemma replace_newline_secondary t :
  contains_secondary (replace_newline t) <-> contains_secondary t.
Proof.
  unfold contains_secondary, replace_newline. split.
  - intros (c & Hc & Hr). apply in_map_iff in Hc as (d & Hd & Hin).
    destruct (Z.eqb_spec d 10); [lia | subst d]. now exists c.
  - intros (c & Hc & Hr). exists c. split; [| exact Hr].
    apply in_map_iff. exists c. split; [| exact Hc].
    destruct (Z.eqb_spec c 10); [lia | reflexivity].
Qed.

Lemma has_kor_spec sub :
  re_search_hangul (replace_newline (sub_text sub)) = true
  <-> contains_secondary (sub_text sub).
Proof. now rewrite re_search_hangul_spec, replace_newline_secondary. Qed.

Lemma keeps_en sub : keeps "en" sub = true <-> ~ contains_secondary (sub_text sub).
Proof.
  rewrite <- has_kor_spec. unfold keeps. simpl.
  destruct (re_search_hangul _); simpl; split; congruence.
Qed.

Lemma keeps_ko sub : keeps "ko" sub = true <-> contains_secondary (sub_text sub).
Proof.
  rewrite <- has_kor_spec. unfold keeps. simpl.
  destruct (re_search_hangul _); simpl; split; congruence.
Qed.

Lemma keeps_exclusive sub : keeps "ko" sub = negb (keeps "en" sub).
Proof. unfold keeps. simpl. now destruct (re_search_hangul _). Qed.

Lemma row_text_secondary sub :
  contains_secondary (text (row_of_sub sub)) <-> contains_secondary (sub_text sub).
Proof. apply replace_newline_secondary. Qed.

Lemma in_parse lang T r :
  In r (parse_srt_to_df T lang)
  <-> exists s, In s T /\ keeps lang s = true /\ r = row_of_sub s.
Proof.
  unfold parse_srt_to_df. rewrite parse_loop_filter. simpl.
  rewrite in_map_iff. split.
  - intros (s & <- & Hs). apply filter_In in Hs as [Hin Hk]. now exists s.
  - intros (s & Hin & Hk & ->). exists s. split; [reflexivity |].
    now apply filter_In.
Qed.

Lemma filter_partition_perm {A} (f : A -> bool) (l : list A) :
  Permutation (filter f l ++ filter (fun x => negb (f x)) l) l.
Proof.
  induction l as [|a l IH]; simpl; [constructor |].
  destruct (f a); simpl.
  - now constructor.
  - apply Permutation_sym, Permutation_cons_app, Permutation_sym, IH.
Qed.

End LanguageFilter.

(** C7. For a raw track [T], the English filter keeps exactly the items
    whose text holds no code point of the Hangul block and the Korean
    filter exactly those holding at least one; every item of [T] is kept
    by exactly one of the two, the two outputs together are the rows of
    [T], and an item with empty text is kept by the English filter. *)
Theorem language_filter_partition (T : list SubRipItem) (s : SubRipItem)
    (Hin : In s T) :
  (In (row_of_sub s) (parse_srt_to_df T "en") <-> ~ contains_secondary (sub_text s))
  /\ (In (row_of_sub s) (parse_srt_to_df T "ko") <-> contains_secondary (sub_text s))
  /\ (In (row_of_sub s) (parse_srt_to_df T "en")
      <-> ~ In (row_of_sub s) (parse_srt_to_df T "ko"))
  /\ Permutation (parse_srt_to_df T "en" ++ parse_srt_to_df T "ko")
       (map row_of_sub T)
  /\ (forall r, In r (parse_srt_to_df T "en") -> ~ contains_secondary (text r))
  /\ (forall r, In r (parse_srt_to_df T "ko") -> contains_secondary (text r))
  /\ (sub_text s = [] ->
      In (row_of_sub s) (parse_srt_to_df T "en")
      /\ ~ In (row_of_sub s) (parse_srt_to_df T "ko")).
Proof.
  assert (Hen : forall s0, In s0 T ->
            (In (row_of_sub s0) (parse_srt_to_df T "en")
             <-> ~ contains_secondary (sub_text s0))).
  { intros s0 H0. rewrite in_parse. split.
    - intros (s' & _ & Hk & Hr). apply keeps_en in Hk.
      rewrite <- row_text_secondary, Hr, row_text_secondary. exact Hk.
    - intros Hn. exists s0. repeat split; [exact H0 | now apply keeps_en]. }
  assert (Hko : forall s0, In s0 T ->
            (In (row_of_sub s0) (parse_srt_to_df T "ko")
             <-> contains_secondary (sub_text s0))).
  { intros s0 H0. rewrite in_parse. split.
    - intros (s' & _ & Hk & Hr). apply keeps_ko in Hk.
      rewrite <- row_text_secondary, Hr, row_text_secondary. exact Hk.
    - intros Hc. exists s0. repeat split; [exact H0 | now apply keeps_ko]. }
  split; [now apply Hen |]. split; [now apply Hko |].
  split; [rewrite (Hen s Hin), (Hko s Hin); tauto |].
  split.
  { unfold parse_srt_to_df. rewrite !parse_loop_filter. simpl.
    rewrite <- map_app. apply Permutation_map.
    rewrite (filter_ext (keeps "ko") (fun x => negb (keeps "en" x)))
      by apply keeps_exclusive.
    apply filter_partition_perm. }
  split.
  { intros r Hr. apply in_parse in Hr as (s' & _ & Hk & ->).
    rewrite row_text_secondary. now apply keeps_en. }
  split.
  { intros r Hr. apply in_parse in Hr as (s' & _ & Hk & ->).
    rewrite row_text_secondary. now apply keeps_ko. }
  intros Hempty.
  assert (Hn : ~ contains_secondary (sub_text s)).
  { rewrite Hempty. intros (c & [] & _). }
  split; [now apply Hen |]. rewrite (Hko s Hin). exact Hn.
Qed.

Lemma language_filter_partition_witness :
  let T := [mkSub 0 1000 [44032; 10; 65]; mkSub 2000 3000 []] in
  In (row_of_sub (mkSub 2000 3000 [])) (parse_srt_to_df T "en")
  /\ ~ In (row_of_sub (mkSub 2000 3000 [])) (parse_srt_to_df T "ko").
Proof.
  intros T.
  apply (language_filter_partition T (mkSub 2000 3000 [])).
  - simpl. right. left. reflexivity.
  - reflexivity.
Defined.

(** ** The shift *)

(** C5. The shift sets every start time to [start - offset] and leaves
    every end time and every text as they were; the frame keeps its rows,
    and the button changes nothing of the session but [kor_shifted]. *)
Theorem shift_changes_only_start (st : Session) (df : DataFrame) (shift : Timedelta) :
  length (shifted df shift) = length df
  /\ map start_time (shifted df shift) = map (fun r => start_time r - shift) df
  /\ map end_time (shifted df shift) = map end_time df
  /\ map text (shifted df shift) = map text df
  /\ kor_shifted (apply_shift st shift) = Some (shifted (kor_df st) shift)
  /\ eng_df (apply_shift st shift) = eng_df st
  /\ kor_df (apply_shift st shift) = kor_df st
  /\ matched (apply_shift st shift) = matched st.
Proof.
  unfold shifted. rewrite length_map, !map_map. simpl.
  repeat split; reflexivity.
Qed.

Lemma apply_shifts_kor_df shifts : forall st,
  kor_df (apply_shifts st shifts) = kor_df st.
Proof.
  unfold apply_shifts.
  induction shifts as [|s shifts IH]; intros st; simpl; [reflexivity |].
  now rewrite IH.
Qed.

(** C6. The shift never compounds: after any sequence of presses the
    stored shifted track is the original Korean track with the last offset
    alone applied, the original track is untouched, and pressing twice with
    the same offset leaves the session as pressing once. *)
Theorem apply_shift_never_compounds (st : Session) (shifts : list Timedelta)
    (shift : Timedelta) :
  kor_shifted (apply_shifts st (shifts ++ [shift]))
  = Some (shifted (kor_df st) shift)
  /\ kor_df (apply_shifts st (shifts ++ [shift])) = kor_df st
  /\ apply_shift (apply_shift st shift) shift = apply_shift st shift.
Proof.
  split; [| split].
  - unfold apply_shifts. rewrite fold_left_app. simpl.
    f_equal. f_equal. apply apply_shifts_kor_df.
  - apply apply_shifts_kor_df.
  - reflexivity.
Qed.

(** ** The manual pair builder *)

Section ManualMatch.

Lemma zip_loop_combine sel_eng : forall sel_kor combined,
  zip_loop sel_eng sel_kor combined
  = combined ++ map (fun ek => manual_pair (fst ek) (snd ek))
                    (combine sel_eng sel_kor).
Proof.
  induction sel_eng as [|e es IH]; intros [|k ks] combined; simpl;
    try now rewrite app_nil_r.
  rewrite IH, <- app_assoc. reflexivity.
Qed.

Lemma iloc_in_range df idx :
  Forall (fun i => - len df <= i < len df) idx ->
  iloc df idx
  = ret (map (fun i => nth (Z.to_nat (iloc_pos (len df) i)) df (mkRow 0 0 []))
             idx).
Proof.
  intros H. unfold iloc.
  replace (forallb _ idx) with true; [reflexivity |].
  symmetry. apply forallb_forall. intros i Hi.
  rewrite Forall_forall in H. specialize (H i Hi). lia.
Qed.






Lemma nth_nth_error {A} (l : list A) n d :
  (n < length l)%nat -> nth_error l n = Some (nth n l d).
Proof. intros H. now apply nth_error_nth'. Qed.

End ManualMatch.

(** C8. With index lists inside the bounds of their tracks the builder
    shows a table of [min (len ref_indices) (len cmp_indices)] rows, and the
    row at position [p] pairs the reference row at the [p]-th reference
    index with the comparison row at the [p]-th comparison index, its
    interval being the comparison start minus the reference start. *)
Theorem manual_pairs_zip (eng_df kor_df : DataFrame) (ref_indices cmp_indices : list Z)
    (Href : Forall (in_track_bounds eng_df) ref_indices)
    (Hcmp : Forall (in_track_bounds kor_df) cmp_indices) :
  exists combined,
    show_manual_match eng_df kor_df (ret (LitSeq ref_indices))
      (ret (LitSeq cmp_indices)) = Table combined
    /\ length combined = Nat.min (length ref_indices) (length cmp_indices)
    /\ forall p, (p < length combined)%nat ->
         exists i j e k,
           nth_error ref_indices p = Some i
           /\ nth_error cmp_indices p = Some j
           /\ nth_error eng_df (Z.to_nat i) = Some e
           /\ nth_error kor_df (Z.to_nat j) = Some k
           /\ nth_error combined p = Some (manual_pair e k)
           /\ interval (manual_pair e k) = start_time k - start_time e.
Proof.
  unfold show_manual_match, manual_match_body. simpl.
  rewrite (iloc_in_range eng_df ref_indices), (iloc_in_range kor_df cmp_indices).
  2:{ eapply Forall_impl; [| exact Hcmp]. unfold in_track_bounds. intros; lia. }
  2:{ eapply Forall_impl; [| exact Href]. unfold in_track_bounds. intros; lia. }
  simpl. rewrite zip_loop_combine. simpl.
  eexists. split; [reflexivity |].
  assert (Hlen : forall combined',
            combined' = map (fun ek => manual_pair (fst ek) (snd ek))
              (combine
                 (map (fun i => nth (Z.to_nat (iloc_pos (len eng_df) i)) eng_df
                                  (mkRow 0 0 [])) ref_indices)
                 (map (fun i => nth (Z.to_nat (iloc_pos (len kor_df) i)) kor_df
                                  (mkRow 0 0 [])) cmp_indices)) ->
            length combined' = Nat.min (length ref_indices) (length cmp_indices)).
  { intros c ->. now rewrite length_map, length_combine, !length_map. }
  split; [now apply Hlen |].
  intros p Hp. rewrite (Hlen _ eq_refl) in Hp.
  destruct (nth_error ref_indices p) as [i|] eqn:Ei.
  2:{ apply nth_error_None in Ei. lia. }
  destruct (nth_error cmp_indices p) as [j|] eqn:Ej.
  2:{ apply nth_error_None in Ej. lia. }
  assert (Hi : in_track_bounds eng_df i).
  { rewrite Forall_forall in Href. eapply Href, nth_error_In, Ei. }
  assert (Hj : in_track_bounds kor_df j).
  { rewrite Forall_forall in Hcmp. eapply Hcmp, nth_error_In, Ej. }
  unfold in_track_bounds, len in Hi, Hj.
  exists i, j, (nth (Z.to_nat i) eng_df (mkRow 0 0 [])),
    (nth (Z.to_nat j) kor_df (mkRow 0 0 [])).
  split; [reflexivity |]. split; [reflexivity |].
  split; [apply nth_nth_error; lia |].
  split; [apply nth_nth_error; lia |].
  split; [| reflexivity].
  rewrite nth_error_map.
  assert (Hc : nth_error
            (combine
               (map (fun i => nth (Z.to_nat (iloc_pos (len eng_df) i)) eng_df
                                (mkRow 0 0 [])) ref_indices)
               (map (fun i => nth (Z.to_nat (iloc_pos (len kor_df) i)) kor_df
                                (mkRow 0 0 [])) cmp_indices)) p
          = Some (nth (Z.to_nat i) eng_df (mkRow 0 0 []),
                  nth (Z.to_nat j) kor_df (mkRow 0 0 []))).
  { clear Hlen Href Hcmp Hp. revert cmp_indices p Ei Ej.
    induction ref_indices as [|a l IH]; intros [|b l'] [|p] Ei Ej;
      simpl in *; try discriminate.
    - injection Ei as ->. injection Ej as ->.
      unfold iloc_pos.
      destruct (Z.ltb_spec i 0); [lia |].
      destruct (Z.ltb_spec j 0); [lia |]. reflexivity.
    - now apply IH. }
  rewrite Hc. reflexivity.
Qed.

Lemma manual_pairs_zip_witness :
  let eng := [mkRow 0 900 (py "A"); mkRow 5000 5900 (py "B")] in
  let kor := [mkRow 300 1200 (py "a")] in
  exists combined,
    show_manual_match eng kor (ret (LitSeq [0; 1])) (ret (LitSeq [0]))
    = Table combined
    /\ length combined = 1%nat.
Proof.
  intros eng kor.
  destruct (manual_pairs_zip eng kor [0; 1] [0]) as (combined & Hshow & Hlen & _).
  - repeat constructor; unfold in_track_bounds; simpl; lia.
  - repeat constructor; unfold in_track_bounds; simpl; lia.
  - exists combined. split; [exact Hshow | exact Hlen].
Defined.




(** ** Sorting by start time *)

Section SortValues.

Lemma insert_sorted_perm r l : Permutation (insert_sorted r l) (r :: l).
Proof.
  induction l as [|h t IH]; simpl; [reflexivity |].
  destruct (start_time r <=? start_time h); [reflexivity |].
  rewrite IH. apply perm_swap.
Qed.

Lemma sort_values_perm df : Permutation (sort_values df) df.
Proof.
  induction df as [|r rest IH]; simpl; [constructor |].
  rewrite insert_sorted_perm. now constructor.
Qed.

Lemma sort_values_length df : length (sort_values df) = length df.
Proof. apply Permutation_length, sort_values_perm. Qed.

Lemma insert_sorted_sorted r l :
  StronglySorted Z.le (map start_time l) ->
  StronglySorted Z.le (map start_time (insert_sorted r l)).
Proof.
  induction l as [|h t IH]; simpl; intros Hs.
  - repeat constructor.
  - inversion Hs as [|? ? Ht Hall]; subst.
    destruct (Z.leb_spec (start_time r) (start_time h)); simpl.
    + constructor; [exact Hs |]. constructor; [assumption |].
      eapply Forall_impl; [| exact Hall]. simpl. intros; lia.
    + constructor; [now apply IH |].
      apply Forall_forall. intros k Hk.
      apply (Permutation_in _ (Permutation_map start_time (insert_sorted_perm r t)))
        in Hk.
      simpl in Hk. destruct Hk as [<- | Hk]; [lia |].
      rewrite Forall_forall in Hall. now apply Hall.
Qed.

Lemma sort_values_sorted df :
  StronglySorted Z.le (map start_time (sort_values df)).
Proof.
  induction df as [|r rest IH]; simpl; [constructor |].
  now apply insert_sorted_sorted.
Qed.

Lemma is_monotonic_increasing_sorted values :
  StronglySorted Z.le values -> is_monotonic_increasing values = true.
Proof.
  induction values as [|x rest IH]; intros Hs; [reflexivity |].
  inversion Hs as [|? ? Hrest Hall]; subst.
  destruct rest as [|y rest']; [reflexivity |].
  change (((x <=? y) && is_monotonic_increasing (y :: rest')) = true).
  rewrite (IH Hrest), andb_true_r. apply Z.leb_le.
  now inversion Hall.
Qed.

(** Two ascending arrangements of the same rows agree when no two rows
    share a start time. *)
Lemma sorted_perm_unique (l : list Row) : forall l',
  NoDup (map start_time l) ->
  Permutation l l' ->
  StronglySorted Z.le (map start_time l) ->
  StronglySorted Z.le (map start_time l') ->
  l = l'.
Proof.
  induction l as [|a l IH]; intros l' Hnd Hp Hs Hs'.
  - apply Permutation_nil in Hp. now subst.
  - destruct l' as [|b l'].
    { apply Permutation_sym, Permutation_nil in Hp. discriminate. }
    assert (Hnd' : NoDup (map start_time (b :: l'))).
    { eapply Permutation_NoDup; [| exact Hnd]. now apply Permutation_map. }
    simpl in *.
    inversion Hs as [|? ? Hsl Hall]; subst.
    inversion Hs' as [|? ? Hsl' Hall']; subst.
    inversion Hnd as [|? ? Hna Hndl]; subst.
    inversion Hnd' as [|? ? Hnb Hndl']; subst.
    rewrite Forall_forall in Hall, Hall'.
    assert (Hab : a = b).
    { assert (Ha : In a (b :: l')) by (eapply Permutation_in; [exact Hp | now left]).
      assert (Hb : In b (a :: l))
        by (eapply Permutation_in; [apply Permutation_sym, Hp | now left]).
      destruct Ha as [Ha | Ha]; [now symmetry |].
      destruct Hb as [Hb | Hb]; [exact Hb |].
      pose proof (Hall' _ (in_map start_time _ _ Ha)) as H1.
      pose proof (Hall _ (in_map start_time _ _ Hb)) as H2.
      assert (start_time a = start_time b) by lia.
      exfalso. apply Hna. rewrite H. now apply in_map. }
    subst b. f_equal.
    apply IH; try assumption.
    now apply Permutation_cons_inv in Hp.
Qed.

Lemma sort_values_perm_invariant df df' :
  NoDup (map start_time df) ->
  Permutation df df' ->
  sort_values df = sort_values df'.
Proof.
  intros Hnd Hp. apply sorted_perm_unique.
  - eapply Permutation_NoDup; [| exact Hnd].
    apply Permutation_map, Permutation_sym, sort_values_perm.
  - rewrite sort_values_perm, Hp. apply Permutation_sym, sort_values_perm.
  - apply sort_values_sorted.
  - apply sort_values_sorted.
Qed.

End SortValues.

(** ** The two ordered scans of the nearest-time merge *)

Section SortedArrays.

Lemma len_nil {A} : len (@nil A) = 0.
Proof. reflexivity. Qed.

Lemma len_cons {A} (a : A) l : len (a :: l) = 1 + len l.
Proof. unfold len. simpl length. lia. Qed.

Lemma len_nonneg {A} (l : list A) : 0 <= len l.
Proof. unfold len. lia. Qed.

Lemma get_head a l : get (a :: l) 0 = a.
Proof. reflexivity. Qed.

Lemma get_tail a l k : 0 < k -> get (a :: l) k = get l (k - 1).
Proof.
  intros Hk. unfold get.
  replace (Z.to_nat k) with (S (Z.to_nat (k - 1))) by lia. reflexivity.
Qed.

Lemma get_In l k : 0 <= k < len l -> In (get l k) l.
Proof. intros Hk. unfold get, len in *. apply nth_In. lia. Qed.

Lemma cnt_le_cons x a l :
  cnt_le x (a :: l) = (if a <=? x then 1 else 0) + cnt_le x l.
Proof.
  unfold cnt_le. simpl. destruct (a <=? x); [now rewrite len_cons | lia].
Qed.

Lemma cnt_lt_cons x a l :
  cnt_lt x (a :: l) = (if a <? x then 1 else 0) + cnt_lt x l.
Proof.
  unfold cnt_lt. simpl. destruct (a <? x); [now rewrite len_cons | lia].
Qed.

Lemma cnt_le_bounds x l : 0 <= cnt_le x l <= len l.
Proof.
  induction l as [|a l IH]; [unfold cnt_le, len; simpl; lia |].
  rewrite cnt_le_cons, len_cons. destruct (a <=? x); lia.
Qed.

Lemma cnt_lt_bounds x l : 0 <= cnt_lt x l <= cnt_le x l.
Proof.
  induction l as [|a l IH]; [unfold cnt_lt, cnt_le, len; simpl; lia |].
  rewrite cnt_lt_cons, cnt_le_cons.
  destruct (Z.ltb_spec a x), (Z.leb_spec a x); lia.
Qed.

Lemma cnt_le_mono x y l : x <= y -> cnt_le x l <= cnt_le y l.
Proof.
  intros Hxy. induction l as [|a l IH]; [reflexivity |].
  rewrite !cnt_le_cons. destruct (Z.leb_spec a x), (Z.leb_spec a y); lia.
Qed.

Lemma cnt_lt_mono x y l : x <= y -> cnt_lt x l <= cnt_lt y l.
Proof.
  intros Hxy. induction l as [|a l IH]; [reflexivity |].
  rewrite !cnt_lt_cons. destruct (Z.ltb_spec a x), (Z.ltb_spec a y); lia.
Qed.

Lemma cnt_le_none x l : Forall (fun v => x < v) l -> cnt_le x l = 0.
Proof.
  induction 1 as [|a l Ha _ IH]; [reflexivity |].
  rewrite cnt_le_cons, IH. destruct (Z.leb_spec a x); lia.
Qed.

Lemma cnt_lt_none x l : Forall (fun v => x <= v) l -> cnt_lt x l = 0.
Proof.
  induction 1 as [|a l Ha _ IH]; [reflexivity |].
  rewrite cnt_lt_cons, IH. destruct (Z.ltb_spec a x); lia.
Qed.

(** In a sorted array the values [<= x] are a prefix. *)
Lemma get_le_iff x l : StronglySorted Z.le l ->
  forall k, 0 <= k < len l -> (get l k <= x <-> k < cnt_le x l).
Proof.
  induction 1 as [|a l Hs IH Hall]; intros k Hk.
  - unfold len in Hk. simpl in Hk. lia.
  - rewrite len_cons in Hk. rewrite cnt_le_cons.
    destruct (Z.leb_spec a x) as [Hax | Hax].
    + destruct (Z.eq_dec k 0) as [-> | Hk0].
      * rewrite get_head. pose proof (cnt_le_bounds x l). lia.
      * rewrite get_tail by lia. rewrite (IH (k - 1)) by lia. lia.
    + rewrite cnt_le_none.
      2:{ eapply Forall_impl; [| exact Hall]. simpl. intros; lia. }
      assert (a <= get (a :: l) k).
      { destruct (Z.eq_dec k 0) as [-> | Hk0]; [rewrite get_head; lia |].
        rewrite get_tail by lia. rewrite Forall_forall in Hall.
        apply Hall, get_In. lia. }
      lia.
Qed.

(** And the values [>= x] are a suffix. *)
Lemma get_ge_iff x l : StronglySorted Z.le l ->
  forall k, 0 <= k < len l -> (x <= get l k <-> cnt_lt x l <= k).
Proof.
  induction 1 as [|a l Hs IH Hall]; intros k Hk.
  - unfold len in Hk. simpl in Hk. lia.
  - rewrite len_cons in Hk. rewrite cnt_lt_cons.
    destruct (Z.ltb_spec a x) as [Hax | Hax].
    + destruct (Z.eq_dec k 0) as [-> | Hk0].
      * rewrite get_head. pose proof (cnt_lt_bounds x l). lia.
      * rewrite get_tail by lia. rewrite (IH (k - 1)) by lia. lia.
    + rewrite cnt_lt_none.
      2:{ eapply Forall_impl; [| exact Hall]. simpl. intros; lia. }
      assert (a <= get (a :: l) k).
      { destruct (Z.eq_dec k 0) as [-> | Hk0]; [rewrite get_head; lia |].
        rewrite get_tail by lia. rewrite Forall_forall in Hall.
        apply Hall, get_In. lia. }
      lia.
Qed.

Lemma get_mono l : StronglySorted Z.le l ->
  forall j k, 0 <= j <= k -> k < len l -> get l j <= get l k.
Proof.
  intros Hs j k Hjk Hk.
  apply (get_le_iff (get l k) l Hs j); [lia |].
  assert (k < cnt_le (get l k) l) by (apply (get_le_iff _ l Hs k); lia).
  lia.
Qed.

Variable right_values : list Z.
Hypothesis right_sorted : StronglySorted Z.le right_values.

(** The backward [while] stops at the number of values [<= x]; the fuel
    given by the loop is enough. *)
Lemma backward_while_stops x : forall fuel right_pos,
  0 <= right_pos <= cnt_le x right_values ->
  (Z.to_nat (len right_values - right_pos) <= fuel)%nat ->
  backward_while fuel right_values x right_pos = cnt_le x right_values.
Proof.
  pose proof (cnt_le_bounds x right_values) as Hb.
  induction fuel as [|fuel IH]; intros p Hp Hfuel; simpl.
  - lia.
  - destruct (Z.ltb_spec p (len right_values)) as [Hlt | Hge]; simpl.
    + pose proof (get_le_iff x right_values right_sorted p ltac:(lia)) as Hiff.
      destruct (Z.leb_spec (get right_values p) x) as [Hle | Hgt].
      * apply IH; lia.
      * lia.
    + lia.
Qed.

Lemma backward_loop_spec tolerance : forall left_values right_pos,
  StronglySorted Z.le left_values ->
  -1 <= right_pos ->
  (forall x, In x left_values -> right_pos <= cnt_le x right_values) ->
  backward_loop left_values right_values tolerance right_pos
  = map (backward_at right_values tolerance) left_values.
Proof.
  induction left_values as [|x rest IH]; intros p Hs Hp Hinv; simpl;
    [reflexivity |].
  inversion Hs as [|? ? Hrest Hall]; subst.
  pose proof (cnt_le_bounds x right_values) as Hb.
  assert (Hw : backward_while (length right_values) right_values x
                 (if p <? 0 then 0 else p) = cnt_le x right_values).
  { apply backward_while_stops.
    - specialize (Hinv x (or_introl eq_refl)).
      destruct (Z.ltb_spec p 0); lia.
    - unfold len. destruct (Z.ltb_spec p 0); lia. }
  rewrite Hw. unfold backward_at at 1. f_equal.
  apply IH; [exact Hrest | lia |].
  intros y Hy. rewrite Forall_forall in Hall.
  pose proof (cnt_le_mono x y right_values (Hall y Hy)). lia.
Qed.

(** The forward [while] stops just below the first value [>= x]. *)
Lemma forward_while_stops x : forall fuel right_pos,
  cnt_lt x right_values - 1 <= right_pos <= len right_values - 1 ->
  (Z.to_nat (right_pos + 1) <= fuel)%nat ->
  forward_while fuel right_values x right_pos = cnt_lt x right_values - 1.
Proof.
  pose proof (cnt_lt_bounds x right_values) as Hb.
  induction fuel as [|fuel IH]; intros p Hp Hfuel; simpl.
  - lia.
  - destruct (Z.leb_spec 0 p) as [Hge | Hlt]; simpl.
    + pose proof (get_ge_iff x right_values right_sorted p ltac:(lia)) as Hiff.
      destruct (Z.leb_spec x (get right_values p)) as [Hle | Hgt].
      * apply IH; lia.
      * lia.
    + lia.
Qed.

Lemma forward_loop_spec tolerance : forall rev_left right_pos,
  StronglySorted Z.ge rev_left ->
  right_pos <= len right_values ->
  (forall x, In x rev_left -> cnt_lt x right_values <= right_pos + 1) ->
  forward_loop rev_left right_values tolerance right_pos
  = map (forward_at right_values tolerance) rev_left.
Proof.
  induction rev_left as [|x rest IH]; intros p Hs Hp Hinv; simpl;
    [reflexivity |].
  inversion Hs as [|? ? Hrest Hall]; subst.
  pose proof (cnt_lt_bounds x right_values) as Hb.
  pose proof (cnt_le_bounds x right_values) as Hb'.
  assert (Hw : forward_while (length right_values) right_values x
                 (if p =? len right_values then len right_values - 1 else p)
               = cnt_lt x right_values - 1).
  { specialize (Hinv x (or_introl eq_refl)).
    apply forward_while_stops.
    - destruct (Z.eqb_spec p (len right_values)); lia.
    - unfold len in *. destruct (Z.eqb_spec p (Z.of_nat (length right_values))); lia. }
  rewrite Hw.
  replace (cnt_lt x right_values - 1 + 1) with (cnt_lt x right_values) by lia.
  unfold forward_at at 1. f_equal.
  apply IH; [exact Hrest | lia |].
  intros y Hy. rewrite Forall_forall in Hall.
  pose proof (cnt_lt_mono y x right_values ltac:(specialize (Hall y Hy); lia)).
  lia.
Qed.

Lemma sorted_rev l : StronglySorted Z.le l -> StronglySorted Z.ge (rev l).
Proof.
  induction 1 as [|a l Hs IH Hall]; simpl; [constructor |].
  assert (Happ : forall l', StronglySorted Z.ge l' ->
                   Forall (fun v => v >= a) l' ->
                   StronglySorted Z.ge (l' ++ [a])).
  { induction 1 as [|b l' Hs' IH' Hall']; intros Hf; simpl.
    - repeat constructor.
    - inversion Hf; subst. constructor; [now apply IH' |].
      apply Forall_app. split; [exact Hall' | now repeat constructor]. }
  apply Happ; [exact IH |].
  apply Forall_forall. intros v Hv. apply in_rev in Hv.
  rewrite Forall_forall in Hall. specialize (Hall v Hv). lia.
Qed.

Lemma nearest_loop_map (b f : Z -> Z) : forall left_values,
  nearest_loop left_values right_values (map b left_values) (map f left_values)
  = map (fun x => nearest_choice right_values x (b x) (f x)) left_values.
Proof.
  induction left_values as [|x xs IH]; simpl; [reflexivity |].
  now rewrite IH.
Qed.

(** On sorted arrays the nearest join is the pointwise nearest choice. *)
Lemma asof_join_nearest_sorted left_values tolerance :
  StronglySorted Z.le left_values ->
  asof_join_nearest left_values right_values tolerance
  = map (nearest_at right_values tolerance) left_values.
Proof.
  intros Hl. unfold asof_join_nearest, asof_join_backward, asof_join_forward.
  rewrite backward_loop_spec; [| exact Hl | lia |].
  2:{ intros x _. apply cnt_le_bounds. }
  rewrite forward_loop_spec; [| now apply sorted_rev | lia |].
  2:{ intros x _. pose proof (cnt_lt_bounds x right_values).
      pose proof (cnt_le_bounds x right_values). lia. }
  rewrite <- map_rev, rev_involutive.
  apply nearest_loop_map.
Qed.

End SortedArrays.

(** ** The nearest choice on a sorted array *)

Section NearestChoice.

Variable right_values : list Z.
Hypothesis right_sorted : StronglySorted Z.le right_values.
Variable tolerance : Z.
Hypothesis tolerance_nonneg : 0 <= tolerance.

Lemma backward_at_cases x :
  let b := cnt_le x right_values - 1 in
  (backward_at right_values tolerance x = -1
   /\ (b = -1 \/ x - get right_values b > tolerance))
  \/ (backward_at right_values tolerance x = b
      /\ 0 <= b /\ x - get right_values b <= tolerance).
Proof.
  intros b. unfold backward_at. fold b.
  pose proof (cnt_le_bounds x right_values).
  destruct (Z.eqb_spec b (-1)); simpl; [left; lia |].
  destruct (Z.gtb_spec (x - get right_values b) tolerance).
  - left. lia.
  - right. lia.
Qed.

Lemma forward_at_cases x :
  let f := cnt_lt x right_values in
  (forward_at right_values tolerance x = -1
   /\ (f = len right_values \/ get right_values f - x > tolerance))
  \/ (forward_at right_values tolerance x = f
      /\ f < len right_values /\ get right_values f - x <= tolerance).
Proof.
  intros f. unfold forward_at. fold f.
  pose proof (cnt_lt_bounds x right_values).
  destruct (Z.eqb_spec f (len right_values)); simpl; [left; lia |].
  destruct (Z.eqb_spec f (-1)); simpl; [lia |].
  pose proof (cnt_le_bounds x right_values).
  destruct (Z.gtb_spec (get right_values f - x) tolerance).
  - left. lia.
  - right. lia.
Qed.

(** What the sorted array says about a position [j], seen from [x]. *)
Lemma position_facts x j :
  0 <= j < len right_values ->
  let b := cnt_le x right_values - 1 in
  let f := cnt_lt x right_values in
  (get right_values j <= x <-> j <= b)
  /\ (x <= get right_values j <-> f <= j)
  /\ (j <= b -> get right_values j <= get right_values b)
  /\ (f <= j -> get right_values f <= get right_values j)
  /\ (0 <= b -> get right_values b <= x)
  /\ (f < len right_values -> x <= get right_values f)
  /\ -1 <= b < len right_values /\ 0 <= f <= b + 1.
Proof.
  intros Hj b f.
  pose proof (cnt_le_bounds x right_values) as Hb.
  pose proof (cnt_lt_bounds x right_values) as Hf.
  pose proof (get_le_iff x right_values right_sorted) as Hle.
  pose proof (get_ge_iff x right_values right_sorted) as Hge.
  pose proof (get_mono right_values right_sorted) as Hmono.
  subst b f.
  split; [rewrite (Hle j Hj); lia |].
  split; [apply (Hge j Hj) |].
  split; [intros; apply Hmono; lia |].
  split; [intros; apply Hmono; lia |].
  split; [intros; apply Hle; lia |].
  split; [intros; apply Hge; lia |].
  lia.
Qed.

Lemma nearest_at_range x :
  nearest_at right_values tolerance x = -1
  \/ 0 <= nearest_at right_values tolerance x < len right_values.
Proof.
  unfold nearest_at, nearest_choice.
  pose proof (cnt_le_bounds x right_values).
  pose proof (cnt_lt_bounds x right_values).
  destruct (backward_at_cases x) as [(-> & _) | (-> & ? & _)];
    destruct (forward_at_cases x) as [(-> & _) | (-> & ? & _)]; simpl;
    repeat match goal with
           | |- context [?a =? ?b] => destruct (Z.eqb_spec a b); simpl
           | |- context [?a <=? ?b] => destruct (Z.leb_spec a b); simpl
           end; lia.
Qed.

(** A match is within the tolerance and no position is closer. *)
Lemma nearest_at_closest x j :
  nearest_at right_values tolerance x <> -1 ->
  0 <= j < len right_values ->
  let m := nearest_at right_values tolerance x in
  Z.abs (get right_values m - x) <= tolerance
  /\ Z.abs (get right_values m - x) <= Z.abs (get right_values j - x).
Proof.
  intros Hm Hj. simpl. revert Hm.
  unfold nearest_at, nearest_choice.
  pose proof (position_facts x j Hj) as Hfacts. simpl in Hfacts.
  destruct (backward_at_cases x) as [(-> & Hb) | (-> & Hb0 & Hb)];
    destruct (forward_at_cases x) as [(-> & Hf) | (-> & Hf0 & Hf)]; simpl;
    repeat match goal with
           | |- context [?a =? ?b] => destruct (Z.eqb_spec a b); simpl
           | |- context [?a <=? ?b] => destruct (Z.leb_spec a b); simpl
           end; intros Hm; try lia.
Qed.

(** No match means every position is farther than the tolerance. *)
Lemma nearest_at_none x j :
  nearest_at right_values tolerance x = -1 ->
  0 <= j < len right_values ->
  tolerance < Z.abs (get right_values j - x).
Proof.
  intros Hm Hj. revert Hm.
  unfold nearest_at, nearest_choice.
  pose proof (position_facts x j Hj) as Hfacts. simpl in Hfacts.
  destruct (backward_at_cases x) as [(-> & Hb) | (-> & Hb0 & Hb)];
    destruct (forward_at_cases x) as [(-> & Hf) | (-> & Hf0 & Hf)]; simpl;
    repeat match goal with
           | |- context [?a =? ?b] => destruct (Z.eqb_spec a b); simpl
           | |- context [?a <=? ?b] => destruct (Z.leb_spec a b); simpl
           end; intros Hm; try lia.
Qed.

(** Between two positions at the same distance that hold different
    values, the earlier one is taken. *)
Lemma nearest_at_tie x j :
  nearest_at right_values tolerance x <> -1 ->
  0 <= j < len right_values ->
  let m := nearest_at right_values tolerance x in
  Z.abs (get right_values j - x) = Z.abs (get right_values m - x) ->
  get right_values j <> get right_values m ->
  m < j.
Proof.
  intros Hm Hj. simpl. revert Hm.
  unfold nearest_at, nearest_choice.
  pose proof (position_facts x j Hj) as Hfacts. simpl in Hfacts.
  destruct (backward_at_cases x) as [(-> & Hb) | (-> & Hb0 & Hb)];
    destruct (forward_at_cases x) as [(-> & Hf) | (-> & Hf0 & Hf)]; simpl;
    repeat match goal with
           | |- context [?a =? ?b] => destruct (Z.eqb_spec a b); simpl
           | |- context [?a <=? ?b] => destruct (Z.leb_spec a b); simpl
           end; intros Hm Hd Hne; try lia.
Qed.

End NearestChoice.

(** ** One run of the automatic matching *)

Section AutomaticMatching.

Lemma tolerance_1s_nonneg : 0 <= tolerance_1s.
Proof. unfold tolerance_1s. lia. Qed.

Lemma combine_map_r {A B} (g : A -> B) (l : list A) :
  combine l (map g l) = map (fun a => (a, g a)) l.
Proof. induction l as [|a l IH]; simpl; [reflexivity | now rewrite IH]. Qed.

Lemma combine_repeat_map {A B C} (d : A) (g : B -> C) (l : list B) :
  combine (repeat d (length l)) (map g l) = map (fun b => (d, g b)) l.
Proof. induction l as [|b l IH]; simpl; [reflexivity | now rewrite IH]. Qed.

Lemma right_indexer_sorted e2 k2 :
  StronglySorted Z.le (map start_time e2) ->
  StronglySorted Z.le (map start_time k2) ->
  asof_join_nearest (map start_time e2) (map start_time k2) tolerance_1s
  = map (fun l => nearest_at (map start_time k2) tolerance_1s (start_time l)) e2.
Proof.
  intros He Hk. rewrite asof_join_nearest_sorted by assumption.
  now rewrite map_map.
Qed.

(** The run returns: the keys were sorted just before the merge, so the
    merge does not raise, and the frames of the run are these. *)
Lemma automatic_matching_run eng kor :
  let e2 := sort_values eng in
  let k2 := sort_values kor in
  let indexer :=
    map (fun l => nearest_at (map start_time k2) tolerance_1s (start_time l)) e2 in
  let matched := map (fun lp => merged_row k2 (fst lp) (snd lp)) (combine e2 indexer) in
  let pairs := map (fun m => (m_Eng_text m, m_Kor_text m)) matched in
  let times := unique (dropna (map m_start_time_KOR matched)) in
  let unmatched := loc_not_isin k2 times in
  automatic_matching eng kor
  = ret {| run_e2 := e2;
           run_k2 := k2;
           run_matched := matched;
           run_matched_pairs := pairs;
           run_matched_kor_times := times;
           run_unmatched_kor := unmatched;
           run_final := pairs ++ map (fun lv => ([], Some (snd lv))) unmatched |}.
Proof.
  intros e2 k2 indexer matched pairs times unmatched.
  subst unmatched times pairs matched indexer e2 k2.
  unfold automatic_matching, merge_asof.
  rewrite (is_monotonic_increasing_sorted _ (sort_values_sorted eng)).
  rewrite (is_monotonic_increasing_sorted _ (sort_values_sorted kor)).
  rewrite right_indexer_sorted by apply sort_values_sorted.
  unfold negb, bind, ret.
  now rewrite combine_repeat_map.
Qed.

Lemma get_start_time k2 j c :
  nth_error k2 j = Some c ->
  get (map start_time k2) (Z.of_nat j) = start_time c
  /\ 0 <= Z.of_nat j < len (map start_time k2).
Proof.
  intros Hj. split.
  - unfold get. rewrite Nat2Z.id.
    erewrite nth_error_nth; [reflexivity |].
    now rewrite nth_error_map, Hj.
  - unfold len. rewrite length_map.
    assert (j < length k2)%nat by (apply nth_error_Some; congruence). lia.
Qed.

Lemma take_right_in_range k2 m :
  0 <= m < len (map start_time k2) ->
  exists c, take_right k2 m = Some c
            /\ nth_error k2 (Z.to_nat m) = Some c
            /\ get (map start_time k2) m = start_time c.
Proof.
  intros Hm. unfold len in Hm. rewrite length_map in Hm.
  destruct (nth_error k2 (Z.to_nat m)) as [c|] eqn:Ec.
  2:{ apply nth_error_None in Ec. lia. }
  exists c. unfold take_right.
  destruct (Z.eqb_spec m (-1)); [lia |].
  repeat split; try assumption.
  destruct (get_start_time k2 _ c Ec) as [Hg _].
  now rewrite Z2Nat.id in Hg by lia.
Qed.

Lemma matched_pair_at k2 e2 (g : Row -> Z) i r :
  nth_error e2 i = Some r ->
  nth_error
    (map (fun m => (m_Eng_text m, m_Kor_text m))
         (map (fun lp => merged_row k2 (fst lp) (snd lp))
              (combine e2 (map g e2)))) i
  = Some (text r, option_map text (take_right k2 (g r))).
Proof.
  intros Hr. rewrite combine_map_r, !map_map, nth_error_map, Hr. reflexivity.
Qed.

End AutomaticMatching.

(** ** The reconciler *)

Section Reconciler.

Lemma isin_In v values : isin v values = true <-> In v values.
Proof.
  unfold isin. rewrite existsb_exists. split.
  - intros (w & Hw & He). apply Z.eqb_eq in He. now subst.
  - intros H. exists v. split; [exact H | apply Z.eqb_refl].
Qed.

Lemma unique_loop_In values : forall seen v,
  In v (unique_loop values seen) <-> In v seen \/ In v values.
Proof.
  induction values as [|w rest IH]; intros seen v; simpl; [tauto |].
  destruct (isin w seen) eqn:E.
  - rewrite IH. apply isin_In in E. split; [tauto |].
    intros [H | [<- | H]]; auto.
  - rewrite IH, in_app_iff. simpl. tauto.
Qed.

Lemma unique_In values v : In v (unique values) <-> In v values.
Proof. unfold unique. rewrite unique_loop_In. simpl. tauto. Qed.

Lemma dropna_In {A} (col : list (option A)) v :
  In v (dropna col) <-> In (Some v) col.
Proof.
  induction col as [|[w|] rest IH]; simpl; [tauto | |].
  - rewrite IH. split; intros [H | H]; auto; left; congruence.
  - rewrite IH. split; [auto | intros [H | H]; [discriminate | exact H]].
Qed.

Lemma filter_combine_snd {A B} (P : B -> bool) : forall (l : list B) (idx : list A),
  length idx = length l ->
  map snd (filter (fun lr => P (snd lr)) (combine idx l)) = filter P l.
Proof.
  induction l as [|b l IH]; intros [|a idx] Hlen; simpl in *;
    try reflexivity; try discriminate.
  destruct (P b); simpl; rewrite IH by lia; reflexivity.
Qed.

Lemma RangeIndex_length n : length (RangeIndex n) = n.
Proof. unfold RangeIndex. now rewrite length_map, length_seq. Qed.

Lemma combine_seq_In {A} (l : list A) : forall s z c,
  In (z, c) (combine (map Z.of_nat (seq s (length l))) l)
  <-> exists j, z = Z.of_nat (s + j) /\ nth_error l j = Some c.
Proof.
  induction l as [|a l IH]; intros s z c; simpl.
  - split; [tauto | intros ([|j] & _ & H); discriminate].
  - rewrite IH. split.
    + intros [H | (j & -> & Hj)].
      * injection H as <- <-. exists 0%nat. split; [f_equal; lia | reflexivity].
      * exists (S j). split; [f_equal; lia | exact Hj].
    + intros ([|j] & -> & Hj); simpl in Hj.
      * left. injection Hj as ->. f_equal. f_equal. lia.
      * right. exists j. split; [f_equal; lia | exact Hj].
Qed.

Lemma combine_RangeIndex_In (k2 : DataFrame) z c :
  In (z, c) (combine (RangeIndex (length k2)) k2)
  <-> exists j, z = Z.of_nat j /\ nth_error k2 j = Some c.
Proof. unfold RangeIndex. now rewrite combine_seq_In. Qed.

(** The labels of the unmatched series: the positions whose start time
    is not among the selected times. *)
Lemma unmatched_label_In k2 times z :
  In z (map fst (loc_not_isin k2 times))
  <-> exists j c, z = Z.of_nat j /\ nth_error k2 j = Some c
                  /\ isin (start_time c) times = false.
Proof.
  unfold loc_not_isin. rewrite map_map. simpl. rewrite in_map_iff. split.
  - intros ([z' c] & <- & Hin). apply filter_In in Hin as [Hin Hf].
    apply combine_RangeIndex_In in Hin as (j & -> & Hj).
    exists j, c. simpl in *. repeat split; try assumption.
    now apply negb_true_iff.
  - intros (j & c & -> & Hj & Hf). exists (Z.of_nat j, c).
    split; [reflexivity |]. apply filter_In. split.
    + apply combine_RangeIndex_In. now exists j.
    + simpl. now rewrite Hf.
Qed.

Lemma NoDup_map_fst_filter_combine {A B} (f : A * B -> bool) :
  forall (idx : list A) (l : list B),
    NoDup idx -> NoDup (map fst (filter f (combine idx l))).
Proof.
  induction idx as [|a idx IH]; intros [|b l] Hnd; simpl; try constructor.
  inversion Hnd as [|? ? Hna Hnd']; subst.
  destruct (f (a, b)); simpl; [| now apply IH].
  constructor; [| now apply IH].
  intros Hin. apply in_map_iff in Hin as ([a' b'] & Heq & Hin).
  simpl in Heq. subst a'. apply filter_In in Hin as [Hin _].
  apply in_combine_l in Hin. contradiction.
Qed.

Lemma unmatched_labels_NoDup k2 times : NoDup (map fst (loc_not_isin k2 times)).
Proof.
  unfold loc_not_isin. rewrite map_map. simpl.
  apply (NoDup_map_fst_filter_combine
           (fun lr => negb (isin (start_time (snd lr)) times))).
  unfold RangeIndex. apply Finite.Injective_map_NoDup; [| apply seq_NoDup].
  intros a b. apply Nat2Z.inj.
Qed.

Lemma unmatched_records k2 times :
  map (fun lv : Z * pystr => (([] : pystr), Some (snd lv))) (loc_not_isin k2 times)
  = map unmatched_record
        (filter (fun c => negb (isin (start_time c) times)) k2).
Proof.
  unfold loc_not_isin. rewrite map_map. simpl.
  rewrite <- (filter_combine_snd (fun c => negb (isin (start_time c) times)) k2
                (RangeIndex (length k2))) by apply RangeIndex_length.
  rewrite map_map. reflexivity.
Qed.

(** The selected times of a run are the start times of the rows the
    right indexer points at. *)
Lemma selected_times_spec e2 k2 (g : Row -> Z) t :
  In t (unique (dropna (map m_start_time_KOR
          (map (fun lp => merged_row k2 (fst lp) (snd lp))
               (combine e2 (map g e2))))))
  <-> exists i m c, nth_error (map g e2) i = Some m
                    /\ take_right k2 m = Some c /\ start_time c = t.
Proof.
  rewrite unique_In, dropna_In, combine_map_r, !map_map. simpl.
  rewrite in_map_iff. split.
  - intros (l & Hl & Hin). apply In_nth_error in Hin as (i & Hi).
    destruct (take_right k2 (g l)) as [c|] eqn:Ec; [| discriminate].
    exists i, (g l), c. rewrite nth_error_map, Hi. simpl in Hl.
    repeat split; [exact Ec | congruence].
  - intros (i & m & c & Hi & Hc & <-).
    rewrite nth_error_map in Hi.
    destruct (nth_error e2 i) as [l|] eqn:El; [| discriminate].
    injection Hi as <-. exists l. rewrite Hc. split; [reflexivity |].
    eapply nth_error_In, El.
Qed.

End Reconciler.

Section RunFacts.

(** What a run holds, in the terms the properties below use. *)
Lemma run_facts eng kor :
  exists run,
    automatic_matching eng kor = ret run
    /\ run_e2 run = sort_values eng
    /\ run_k2 run = sort_values kor
    /\ right_indexer run
       = map (fun l => nearest_at (map start_time (run_k2 run)) tolerance_1s
                         (start_time l)) (run_e2 run)
    /\ (forall i r, nth_error (run_e2 run) i = Some r ->
          forall m, nth_error (right_indexer run) i = Some m ->
          nth_error (run_matched_pairs run) i
          = Some (text r, option_map text (take_right (run_k2 run) m)))
    /\ length (run_matched_pairs run) = length eng
    /\ (forall t, In t (run_matched_kor_times run) <-> start_selected run t)
    /\ run_unmatched_kor run
       = loc_not_isin (run_k2 run) (run_matched_kor_times run)
    /\ run_final run
       = run_matched_pairs run
         ++ map unmatched_record
              (filter (fun c => negb (isin (start_time c)
                                        (run_matched_kor_times run)))
                      (run_k2 run)).
Proof.
  eexists. split; [apply automatic_matching_run |].
  unfold start_selected, right_indexer. cbn [run_e2 run_k2 run_matched_pairs
    run_matched_kor_times run_unmatched_kor run_final].
  rewrite right_indexer_sorted by apply sort_values_sorted.
  split; [reflexivity |]. split; [reflexivity |]. split; [reflexivity |].
  split.
  { intros i r Hr m Hm. rewrite nth_error_map, Hr in Hm. injection Hm as <-.
    now apply matched_pair_at. }
  split.
  { now rewrite combine_map_r, !length_map, sort_values_length. }
  split; [intros t; apply selected_times_spec |].
  split; [reflexivity |].
  now rewrite unmatched_records.
Qed.

Lemma right_indexer_range run i m :
  right_indexer run
  = map (fun l => nearest_at (map start_time (run_k2 run)) tolerance_1s
                    (start_time l)) (run_e2 run) ->
  nth_error (right_indexer run) i = Some m ->
  m = -1 \/ 0 <= m < len (run_k2 run).
Proof.
  intros Hidx Hm. rewrite Hidx, nth_error_map in Hm.
  destruct (nth_error (run_e2 run) i) as [l|]; [| discriminate].
  injection Hm as <-.
  replace (len (run_k2 run)) with (len (map start_time (run_k2 run)))
    by (unfold len; now rewrite length_map).
  apply nearest_at_range.
Qed.

Lemma take_right_Some k2 m c :
  m = -1 \/ 0 <= m < len k2 ->
  take_right k2 m = Some c ->
  0 <= m /\ nth_error k2 (Z.to_nat m) = Some c.
Proof.
  unfold take_right. intros [-> | Hm]; [discriminate |].
  destruct (Z.eqb_spec m (-1)); [lia |]. intros H. split; [lia | exact H].
Qed.

Lemma take_right_of_nat k2 j : take_right k2 (Z.of_nat j) = nth_error k2 j.
Proof.
  unfold take_right. destruct (Z.eqb_spec (Z.of_nat j) (-1)); [lia |].
  now rewrite Nat2Z.id.
Qed.

Lemma start_time_injective (k2 : DataFrame) a b c c' :
  NoDup (map start_time k2) ->
  nth_error k2 a = Some c -> nth_error k2 b = Some c' ->
  start_time c = start_time c' -> a = b.
Proof.
  intros Hnd Ha Hb Heq.
  apply (proj1 (NoDup_nth_error (map start_time k2)) Hnd).
  - rewrite length_map. apply nth_error_Some. congruence.
  - rewrite !nth_error_map, Ha, Hb. simpl. congruence.
Qed.

End RunFacts.

(** ** The nearest-time matcher *)

(** C1, as stated, fails on two comparison rows that share a start time:
    the backward scan stops on the last of them, so the later-indexed row
    is selected although the earlier one is at the same distance. *)
Lemma nearest_tie_takes_later_duplicate :
  let eng := [mkRow 5000000000 6000000000 (py "A")] in
  let kor := [mkRow 4600000000 5600000000 (py "x");
              mkRow 4600000000 5600000000 (py "y")] in
  exists run,
    automatic_matching eng kor = ret run
    /\ right_indexer run = [1]
    /\ run_matched_pairs run = [(py "A", Some (py "y"))]
    /\ ~ ties_resolve_to_earlier run.
Proof.
  intros eng kor. eexists. split; [reflexivity |].
  split; [reflexivity |]. split; [reflexivity |].
  intros H.
  specialize (H 0%nat (mkRow 5000000000 6000000000 (py "A")) 1 0%nat
                (mkRow 4600000000 5600000000 (py "y"))
                (mkRow 4600000000 5600000000 (py "x"))
                eq_refl eq_refl eq_refl eq_refl eq_refl).
  simpl in H. lia.
Qed.

(** C1, amended. The run returns, with one selection per reference row.
    For the reference row [r] at position [i] of the sorted English track
    and its selection [m]: the matched pair at [i] holds the text of [r]
    and the text of the comparison row at [m], or no text when [m] is
    [-1]; a selected row is within one second of [r] and no comparison row
    is closer; [m] is [-1] exactly when every comparison row is farther
    than one second; and among rows at the same distance that differ in
    start time the selected one has the smaller position, so that with
    comparison start times all different every tie goes to the earlier
    position. *)
Theorem nearest_match_within_tolerance (eng_df kor_shifted : DataFrame) :
  exists run,
    automatic_matching eng_df kor_shifted = ret run
    /\ length (right_indexer run) = length (run_e2 run)
    /\ forall i r m,
         nth_error (run_e2 run) i = Some r ->
         nth_error (right_indexer run) i = Some m ->
         nth_error (run_matched_pairs run) i
         = Some (text r, option_map text (take_right (run_k2 run) m))
         /\ (m <> -1 ->
             exists c,
               take_right (run_k2 run) m = Some c
               /\ nth_error (run_k2 run) (Z.to_nat m) = Some c
               /\ 0 <= m
               /\ distance c r <= tolerance_1s
               /\ (forall c', In c' (run_k2 run) -> distance c r <= distance c' r)
               /\ (forall j c',
                     nth_error (run_k2 run) j = Some c' ->
                     distance c' r = distance c r ->
                     start_time c' <> start_time c ->
                     m < Z.of_nat j)
               /\ (NoDup (map start_time kor_shifted) ->
                   forall j c',
                     nth_error (run_k2 run) j = Some c' ->
                     distance c' r = distance c r ->
                     m <= Z.of_nat j))
         /\ (m = -1 <->
             forall c', In c' (run_k2 run) -> tolerance_1s < distance c' r)
         /\ (m = -1 -> nth_error (run_matched_pairs run) i = Some (text r, None)).
Proof.
  eexists. split; [apply automatic_matching_run |].
  unfold right_indexer. cbn [run_e2 run_k2 run_matched_pairs].
  set (e2 := sort_values eng_df). set (k2 := sort_values kor_shifted).
  assert (Hk : StronglySorted Z.le (map start_time k2)) by apply sort_values_sorted.
  rewrite right_indexer_sorted by apply sort_values_sorted.
  split; [now rewrite length_map |].
  intros i r m Hr Hm.
  rewrite nth_error_map, Hr in Hm. injection Hm as Hm.
  pose proof (matched_pair_at k2 e2
                (fun l => nearest_at (map start_time k2) tolerance_1s (start_time l))
                i r Hr) as Hpair.
  cbv beta in Hpair. rewrite Hm in Hpair.
  assert (Hsel : m <> -1 ->
            exists c,
              take_right k2 m = Some c
              /\ nth_error k2 (Z.to_nat m) = Some c
              /\ get (map start_time k2) m = start_time c
              /\ 0 <= m < len (map start_time k2)).
  { intros Hne.
    destruct (nearest_at_range (map start_time k2) tolerance_1s (start_time r))
      as [Hn | Hn]; rewrite Hm in Hn; [contradiction |].
    destruct (take_right_in_range k2 m Hn) as (c & H1 & H2 & H3).
    exists c. auto. }
  split; [exact Hpair |].
  split; [| split].
  - intros Hne. destruct (Hsel Hne) as (c & Htake & Hnth & Hget & Hrange).
    exists c. split; [exact Htake |]. split; [exact Hnth |].
    split; [lia |].
    assert (Hclosest : forall j c', nth_error k2 j = Some c' ->
              distance c r <= tolerance_1s /\ distance c r <= distance c' r).
    { intros j c' Hj. destruct (get_start_time k2 j c' Hj) as [Hg Hjr].
      pose proof (nearest_at_closest (map start_time k2) Hk tolerance_1s
                    tolerance_1s_nonneg (start_time r) (Z.of_nat j)) as Hc.
      rewrite Hm in Hc. specialize (Hc Hne Hjr). cbv zeta in Hc.
      rewrite Hget, Hg in Hc. exact Hc. }
    split; [exact (proj1 (Hclosest _ c Hnth)) |].
    split.
    + intros c' Hin. apply In_nth_error in Hin as (j & Hj).
      exact (proj2 (Hclosest j c' Hj)).
    + assert (Htie : forall j c',
                nth_error k2 j = Some c' ->
                distance c' r = distance c r ->
                start_time c' <> start_time c ->
                m < Z.of_nat j).
      { intros j c' Hj Hd Hst. destruct (get_start_time k2 j c' Hj) as [Hg Hjr].
        pose proof (nearest_at_tie (map start_time k2) Hk tolerance_1s
                      tolerance_1s_nonneg (start_time r) (Z.of_nat j)) as Ht.
        rewrite Hm in Ht. specialize (Ht Hne Hjr). cbv zeta in Ht.
        rewrite Hget, Hg in Ht. apply Ht; assumption. }
      split; [exact Htie |].
      intros Hnd j c' Hj Hd.
      destruct (Z.eq_dec (start_time c') (start_time c)) as [Heq | Hdiff].
      * assert (Hnd2 : NoDup (map start_time k2)).
        { eapply Permutation_NoDup; [| exact Hnd].
          apply Permutation_map, Permutation_sym, sort_values_perm. }
        pose proof (start_time_injective k2 _ _ _ _ Hnd2 Hj Hnth Heq). lia.
      * specialize (Htie j c' Hj Hd Hdiff). lia.
  - split.
    + intros Hnone c' Hin. apply In_nth_error in Hin as (j & Hj).
      destruct (get_start_time k2 j c' Hj) as [Hg Hjr].
      pose proof (nearest_at_none (map start_time k2) Hk tolerance_1s
                    tolerance_1s_nonneg (start_time r) (Z.of_nat j)) as Hn.
      rewrite Hm, Hg in Hn. now apply Hn.
    + intros Hfar. destruct (Z.eq_dec m (-1)) as [| Hne]; [assumption |].
      exfalso. destruct (Hsel Hne) as (c & _ & Hnth & Hget & Hrange).
      destruct (get_start_time k2 _ c Hnth) as [Hg Hjr].
      pose proof (nearest_at_closest (map start_time k2) Hk tolerance_1s
                    tolerance_1s_nonneg (start_time r) m) as Hc.
      rewrite Hm in Hc. specialize (Hc Hne Hrange). cbv zeta in Hc.
      rewrite Hget in Hc.
      specialize (Hfar c (nth_error_In _ _ Hnth)). unfold distance in Hfar. lia.
  - intros ->. exact Hpair.
Qed.

Lemma nearest_match_within_tolerance_witness :
  let eng := [mkRow 0 900000000 (py "A"); mkRow 5000000000 5900000000 (py "B")] in
  let kor := [mkRow 300000000 1200000000 (py "a");
              mkRow 10000000000 10900000000 (py "c")] in
  exists run,
    automatic_matching eng kor = ret run
    /\ nth_error (run_matched_pairs run) 0 = Some (py "A", Some (py "a"))
    /\ nth_error (run_matched_pairs run) 1 = Some (py "B", None).
Proof.
  intros eng kor.
  destruct (nearest_match_within_tolerance eng kor) as (run & Hrun & _ & H).
  exists run. split; [exact Hrun |].
  vm_compute in Hrun. injection Hrun as <-.
  split.
  - exact (proj1 (H 0%nat (mkRow 0 900000000 (py "A")) 0 eq_refl eq_refl)).
  - exact (proj1 (H 1%nat (mkRow 5000000000 5900000000 (py "B")) (-1)
                    eq_refl eq_refl)).
Defined.

Section NeverSelected.

Lemma filter_combine_fst {A B} (Q : A -> bool) :
  forall (idx : list A) (l : list B),
    length idx = length l ->
    map fst (filter (fun p => Q (fst p)) (combine idx l)) = filter Q idx.
Proof.
  induction idx as [|a idx IH]; intros [|b l] Hlen; simpl in *;
    try reflexivity; try discriminate.
  destruct (Q a); simpl; rewrite IH by lia; reflexivity.
Qed.

(** With comparison start times all different, a position is selected
    exactly when its start time is. *)
Lemma selected_position_iff run j c :
  right_indexer run
  = map (fun l => nearest_at (map start_time (run_k2 run)) tolerance_1s
                    (start_time l)) (run_e2 run) ->
  NoDup (map start_time (run_k2 run)) ->
  nth_error (run_k2 run) j = Some c ->
  (In (Z.of_nat j) (selected_positions run)
   <-> start_selected run (start_time c)).
Proof.
  intros Hidx Hnd Hj.
  unfold selected_positions. rewrite nodup_In, filter_In. split.
  - intros [Hin _]. apply In_nth_error in Hin as (i & Hi).
    exists i, (Z.of_nat j), c. rewrite take_right_of_nat. auto.
  - intros (i & m & c0 & Hi & Htake & Heq).
    destruct (take_right_Some _ _ _ (right_indexer_range run i m Hidx Hi) Htake)
      as [Hm0 Hnth].
    assert (Z.to_nat m = j) by (eapply start_time_injective; eassumption).
    assert (Hmj : m = Z.of_nat j) by lia. subst m.
    split; [eapply nth_error_In, Hi |].
    apply negb_true_iff, Z.eqb_neq. lia.
Qed.

Lemma never_selected_count_unique run :
  right_indexer run
  = map (fun l => nearest_at (map start_time (run_k2 run)) tolerance_1s
                    (start_time l)) (run_e2 run) ->
  (forall t, In t (run_matched_kor_times run) <-> start_selected run t) ->
  NoDup (map start_time (run_k2 run)) ->
  length (filter (fun c => negb (isin (start_time c) (run_matched_kor_times run)))
                 (run_k2 run))
  = never_selected_count run.
Proof.
  intros Hidx Htimes Hnd. unfold never_selected_count.
  rewrite <- (filter_combine_snd
                (fun c => negb (isin (start_time c) (run_matched_kor_times run)))
                (run_k2 run) (RangeIndex (length (run_k2 run))))
    by apply RangeIndex_length.
  rewrite <- (filter_combine_fst
                (fun j => negb (existsb (Z.eqb j) (selected_positions run)))
                (RangeIndex (length (run_k2 run))) (run_k2 run))
    by apply RangeIndex_length.
  rewrite !length_map. f_equal. apply filter_ext_in.
  intros [z c] Hin. simpl.
  apply combine_RangeIndex_In in Hin as (j & -> & Hj).
  f_equal. apply eq_iff_eq_true.
  rewrite isin_In, Htimes, <- (selected_position_iff run j c Hidx Hnd Hj).
  rewrite existsb_exists. split.
  - intros H. exists (Z.of_nat j). split; [exact H | apply Z.eqb_refl].
  - intros (x & Hx & He). apply Z.eqb_eq in He. now subst x.
Qed.

End NeverSelected.

(** C2, as stated, fails when two comparison rows share a start time: the
    row the matcher did not take shares the key of the one it took, gets
    no unmatched record, and the final frame is one row short of the
    number of reference rows plus the number of never-selected rows. *)
Lemma unmatched_count_misses_duplicate :
  let eng := [mkRow 5000000000 6000000000 (py "A")] in
  let kor := [mkRow 4600000000 5600000000 (py "x");
              mkRow 4600000000 5600000000 (py "y")] in
  exists run,
    automatic_matching eng kor = ret run
    /\ selected_positions run = [1]
    /\ never_selected_count run = 1%nat
    /\ run_final run = [(py "A", Some (py "y"))]
    /\ length (run_final run) <> (length eng + never_selected_count run)%nat.
Proof.
  intros eng kor. eexists. split; [reflexivity |].
  split; [reflexivity |]. split; [reflexivity |]. split; [reflexivity |].
  simpl. discriminate.
Qed.

(** C2, amended. The run returns; the matched pairs hold one row per
    reference row; the final frame is the matched pairs followed by the
    unmatched records of the comparison rows whose start time was never
    selected, taken in the order of the sorted comparison track; its
    length is the number of reference rows plus the number of those rows;
    and when the start times of the comparison track are all different
    those rows are the never-selected rows, so the length is the number of
    reference rows plus the number of never-selected comparison rows. *)
Theorem one_row_per_reference (eng_df kor_shifted : DataFrame) :
  exists run,
    automatic_matching eng_df kor_shifted = ret run
    /\ length (run_matched_pairs run) = length eng_df
    /\ (forall t, isin t (run_matched_kor_times run) = true <-> start_selected run t)
    /\ run_final run
       = run_matched_pairs run
         ++ map unmatched_record
              (filter (fun c => negb (isin (start_time c) (run_matched_kor_times run)))
                      (run_k2 run))
    /\ length (run_final run)
       = (length eng_df
          + length (filter (fun c => negb (isin (start_time c)
                                             (run_matched_kor_times run)))
                           (run_k2 run)))%nat
    /\ StronglySorted Z.le (map start_time (run_k2 run))
    /\ Permutation (run_k2 run) kor_shifted
    /\ Permutation (run_e2 run) eng_df
    /\ (NoDup (map start_time kor_shifted) ->
        length (run_final run)
        = (length eng_df + never_selected_count run)%nat).
Proof.
  destruct (run_facts eng_df kor_shifted)
    as (run & Hrun & He2 & Hk2 & Hidx & _ & Hlen & Htimes & _ & Hfinal).
  exists run. split; [exact Hrun |]. split; [exact Hlen |].
  split; [intros t; rewrite isin_In; apply Htimes |].
  split; [exact Hfinal |].
  assert (Hcount : length (run_final run)
                   = (length eng_df
                      + length (filter (fun c => negb (isin (start_time c)
                                                         (run_matched_kor_times run)))
                                       (run_k2 run)))%nat).
  { rewrite Hfinal, length_app, length_map, Hlen. reflexivity. }
  split; [exact Hcount |].
  split; [rewrite Hk2; apply sort_values_sorted |].
  split; [rewrite Hk2; apply sort_values_perm |].
  split; [rewrite He2; apply sort_values_perm |].
  intros Hnd. rewrite Hcount. f_equal.
  apply never_selected_count_unique; try assumption.
  rewrite Hk2. eapply Permutation_NoDup; [| exact Hnd].
  apply Permutation_map, Permutation_sym, sort_values_perm.
Qed.

Lemma one_row_per_reference_witness :
  let eng := [mkRow 0 900000000 (py "A"); mkRow 5000000000 5900000000 (py "B")] in
  let kor := [mkRow 300000000 1200000000 (py "a");
              mkRow 10000000000 10900000000 (py "c")] in
  exists run,
    automatic_matching eng kor = ret run
    /\ length (run_matched_pairs run) = 2%nat
    /\ length (run_final run) = 3%nat.
Proof.
  intros eng kor.
  destruct (one_row_per_reference eng kor) as (run & Hrun & Hlen & _ & _ & Hfin & _).
  exists run. split; [exact Hrun |]. split; [exact Hlen |].
  rewrite Hfin. vm_compute in Hrun. injection Hrun as <-. reflexivity.
Defined.

(** C3. The unmatched records are keyed by start time: a comparison row
    goes to the unmatched records exactly when no selected row starts at
    its start time, so two rows that share a start time go together. When
    the start times of the comparison track are all different, every
    position of the track occurs exactly once in the selected positions
    followed by the unmatched positions. *)
Theorem comparison_rows_accounted_once (eng_df kor_shifted : DataFrame) :
  exists run,
    automatic_matching eng_df kor_shifted = ret run
    /\ (forall j c, nth_error (run_k2 run) j = Some c ->
          (In (Z.of_nat j) (unmatched_positions run)
           <-> ~ start_selected run (start_time c)))
    /\ (forall j j' c c',
          nth_error (run_k2 run) j = Some c ->
          nth_error (run_k2 run) j' = Some c' ->
          start_time c = start_time c' ->
          (In (Z.of_nat j) (unmatched_positions run)
           <-> In (Z.of_nat j') (unmatched_positions run)))
    /\ (forall j c, nth_error (run_k2 run) j = Some c ->
          In (Z.of_nat j) (unmatched_positions run) ->
          In (Z.of_nat j, text c) (run_unmatched_kor run)
          /\ In (unmatched_record c) (run_final run))
    /\ (NoDup (map start_time kor_shifted) ->
        forall j c, nth_error (run_k2 run) j = Some c ->
          count_occ Z.eq_dec (selected_positions run ++ unmatched_positions run)
            (Z.of_nat j) = 1%nat).
Proof.
  destruct (run_facts eng_df kor_shifted)
    as (run & Hrun & He2 & Hk2 & Hidx & _ & _ & Htimes & Hun & Hfinal).
  exists run. split; [exact Hrun |].
  assert (Hkey : forall j c, nth_error (run_k2 run) j = Some c ->
            (In (Z.of_nat j) (unmatched_positions run)
             <-> ~ start_selected run (start_time c))).
  { intros j c Hj. unfold unmatched_positions. rewrite Hun, unmatched_label_In.
    rewrite <- Htimes, <- isin_In. split.
    - intros (j' & c' & Hjj & Hj' & Hf). apply Nat2Z.inj in Hjj. subst j'.
      rewrite Hj in Hj'. injection Hj' as <-. congruence.
    - intros Hn. exists j, c. repeat split; try assumption.
      now apply not_true_is_false. }
  split; [exact Hkey |].
  split.
  { intros j j' c c' Hj Hj' Heq.
    rewrite (Hkey j c Hj), (Hkey j' c' Hj'), Heq. reflexivity. }
  split.
  { intros j c Hj Hin. split.
    - unfold unmatched_positions in Hin. rewrite Hun in Hin |- *.
      apply unmatched_label_In in Hin as (j' & c' & Hjj & Hj' & Hf).
      apply Nat2Z.inj in Hjj. subst j'. rewrite Hj in Hj'. injection Hj' as <-.
      unfold loc_not_isin. apply in_map_iff. exists (Z.of_nat j, c).
      split; [reflexivity |]. apply filter_In. split.
      + apply combine_RangeIndex_In. now exists j.
      + simpl. now rewrite Hf.
    - rewrite Hfinal. apply in_or_app. right. apply in_map, filter_In.
      split; [eapply nth_error_In, Hj |].
      apply negb_true_iff, not_true_is_false. rewrite isin_In, Htimes.
      exact (proj1 (Hkey j c Hj) Hin). }
  intros Hnd j c Hj.
  assert (Hnd2 : NoDup (map start_time (run_k2 run))).
  { rewrite Hk2. eapply Permutation_NoDup; [| exact Hnd].
    apply Permutation_map, Permutation_sym, sort_values_perm. }
  assert (Hsel : In (Z.of_nat j) (selected_positions run)
                 <-> start_selected run (start_time c)).
  { unfold selected_positions. rewrite nodup_In, filter_In. split.
    - intros [Hin _]. apply In_nth_error in Hin as (i & Hi).
      exists i, (Z.of_nat j), c. rewrite take_right_of_nat. auto.
    - intros (i & m & c0 & Hi & Htake & Heq).
      destruct (take_right_Some _ _ _ (right_indexer_range run i m Hidx Hi) Htake)
        as [Hm0 Hnth].
      assert (Z.to_nat m = j) by (eapply start_time_injective; eassumption).
      assert (Hmj : m = Z.of_nat j) by lia. subst m.
      split; [eapply nth_error_In, Hi |].
      apply negb_true_iff, Z.eqb_neq. lia. }
  rewrite count_occ_app.
  assert (Hnd_sel : NoDup (selected_positions run)) by apply NoDup_nodup.
  assert (Hnd_un : NoDup (unmatched_positions run)).
  { unfold unmatched_positions. rewrite Hun. apply unmatched_labels_NoDup. }
  destruct (isin (start_time c) (run_matched_kor_times run)) eqn:Eisin.
  - assert (Hs : start_selected run (start_time c))
      by (apply Htimes, isin_In, Eisin).
    rewrite (proj1 (NoDup_count_occ' Z.eq_dec _) Hnd_sel _ (proj2 Hsel Hs)).
    rewrite (proj1 (count_occ_not_In Z.eq_dec _ _)); [reflexivity |].
    rewrite (Hkey j c Hj). tauto.
  - assert (Hs : ~ start_selected run (start_time c)).
    { rewrite <- Htimes, <- isin_In. congruence. }
    rewrite (proj1 (count_occ_not_In Z.eq_dec _ _)); [| now rewrite Hsel].
    rewrite (proj1 (NoDup_count_occ' Z.eq_dec _) Hnd_un _ (proj2 (Hkey j c Hj) Hs)).
    reflexivity.
Qed.

Lemma comparison_rows_accounted_once_witness :
  let eng := [mkRow 0 900000000 (py "A"); mkRow 5000000000 5900000000 (py "B")] in
  let kor := [mkRow 300000000 1200000000 (py "a");
              mkRow 10000000000 10900000000 (py "c")] in
  exists run,
    automatic_matching eng kor = ret run
    /\ count_occ Z.eq_dec (selected_positions run ++ unmatched_positions run) 0
       = 1%nat
    /\ count_occ Z.eq_dec (selected_positions run ++ unmatched_positions run) 1
       = 1%nat.
Proof.
  intros eng kor.
  destruct (comparison_rows_accounted_once eng kor)
    as (run & Hrun & _ & _ & _ & Hcount).
  exists run. split; [exact Hrun |].
  assert (Hnd : NoDup (map start_time kor)).
  { simpl. repeat constructor; simpl; intuition discriminate. }
  specialize (Hcount Hnd).
  vm_compute in Hrun. injection Hrun as <-.
  split.
  - exact (Hcount 0%nat (mkRow 300000000 1200000000 (py "a")) eq_refl).
  - exact (Hcount 1%nat (mkRow 10000000000 10900000000 (py "c")) eq_refl).
Defined.

(** With two comparison rows at one start time the key is shared: the
    row the matcher did not take is listed neither among the selected
    positions nor among the unmatched records. *)
Example shared_start_time_is_one_key :
  let eng := [mkRow 5000000000 6000000000 (py "A")] in
  let kor := [mkRow 4600000000 5600000000 (py "x");
              mkRow 4600000000 5600000000 (py "y")] in
  exists run,
    automatic_matching eng kor = ret run
    /\ selected_positions run = [1]
    /\ unmatched_positions run = []
    /\ run_final run = [(py "A", Some (py "y"))].
Proof. intros eng kor. eexists. repeat split; reflexivity. Qed.

(** C4, as stated, fails on the frame: on the scenario the final frame
    holds a missing value, not the empty string, for the comparison text of
    the unmatched reference row, so it is not the claimed list of pairs. *)
Lemma scenario_frame_holds_missing_text :
  let eng := [mkRow 0 900000000 (py "A");
              mkRow 5000000000 5900000000 (py "B")] in
  let kor := [mkRow 300000000 1200000000 (py "a");
              mkRow 10000000000 10900000000 (py "c")] in
  exists run,
    automatic_matching eng kor = ret run
    /\ nth_error (run_final run) 1 = Some (py "B", None)
    /\ run_final run
       <> [(py "A", Some (py "a")); (py "B", Some []); ([], Some (py "c"))].
Proof.
  intros eng kor. eexists. split; [reflexivity |]. split; [reflexivity |].
  simpl. discriminate.
Qed.

(** C4, amended. A reference row with no comparison row within one second is in
    the final frame with a missing comparison text, which the CSV writes
    as the empty field. On the scenario of the specification the final
    frame is [("A","a"); ("B", missing); ("", "c")] and the CSV records
    are the header, [("A","a")], [("B","")] and [("","c")]. *)
Theorem unmatched_reference_has_empty_text (eng_df kor_shifted : DataFrame)
    (i : nat) (r : Row)
    (Hr : nth_error (sort_values eng_df) i = Some r)
    (Hfar : forall c, In c kor_shifted -> tolerance_1s < distance c r) :
  (exists run,
     automatic_matching eng_df kor_shifted = ret run
     /\ nth_error (run_e2 run) i = Some r
     /\ nth_error (run_final run) i = Some (text r, None)
     /\ nth_error (to_csv (run_final run)) (S i) = Some (text r, []))
  /\ (let eng := [mkRow 0 900000000 (py "A");
                  mkRow 5000000000 5900000000 (py "B")] in
      let kor := [mkRow 300000000 1200000000 (py "a");
                  mkRow 10000000000 10900000000 (py "c")] in
      exists run,
        automatic_matching eng kor = ret run
        /\ run_final run
           = [(py "A", Some (py "a")); (py "B", None); ([], Some (py "c"))]
        /\ to_csv (run_final run)
           = [(py "Eng_text", py "Kor_text"); (py "A", py "a"); (py "B", []);
              ([], py "c")]).
Proof.
  split.
  2:{ intros eng kor. eexists. repeat split; reflexivity. }
  destruct (run_facts eng_df kor_shifted)
    as (run & Hrun & He2 & Hk2 & Hidx & Hpair & Hlen & _ & _ & Hfinal).
  exists run. split; [exact Hrun |].
  rewrite <- He2 in Hr. split; [exact Hr |].
  set (m := nearest_at (map start_time (run_k2 run)) tolerance_1s (start_time r)).
  assert (Hm : nth_error (right_indexer run) i = Some m).
  { rewrite Hidx, nth_error_map, Hr. reflexivity. }
  assert (Hnone : m = -1).
  { destruct (Z.eq_dec m (-1)) as [| Hne]; [assumption | exfalso].
    assert (Hk : StronglySorted Z.le (map start_time (run_k2 run)))
      by (rewrite Hk2; apply sort_values_sorted).
    destruct (nearest_at_range (map start_time (run_k2 run)) tolerance_1s
                (start_time r)) as [Hn | Hn]; fold m in Hn; [contradiction |].
    destruct (take_right_in_range (run_k2 run) m Hn) as (c & _ & Hnth & Hget).
    pose proof (nearest_at_closest (map start_time (run_k2 run)) Hk tolerance_1s
                  tolerance_1s_nonneg (start_time r) m) as Hc.
    fold m in Hc. specialize (Hc Hne Hn). cbv zeta in Hc. rewrite Hget in Hc.
    assert (Hin : In c kor_shifted).
    { eapply Permutation_in; [apply sort_values_perm |].
      rewrite <- Hk2. eapply nth_error_In, Hnth. }
    specialize (Hfar c Hin). unfold distance in Hfar. lia. }
  assert (Hi : nth_error (run_final run) i = Some (text r, None)).
  { rewrite Hfinal, nth_error_app1.
    - rewrite (Hpair i r Hr m Hm), Hnone. reflexivity.
    - rewrite Hlen, <- (sort_values_length eng_df), <- He2.
      apply nth_error_Some. congruence. }
  split; [exact Hi |].
  unfold to_csv. cbn [nth_error]. rewrite nth_error_map.
  change (option_map (fun row : FinalRow => (fst row, csv_field (snd row)))
            (nth_error (run_final run) i) = Some (text r, [])).
  rewrite Hi. reflexivity.
Qed.

Lemma unmatched_reference_has_empty_text_witness :
  let eng := [mkRow 5000000000 5900000000 (py "B"); mkRow 0 900000000 (py "A")] in
  let kor := [mkRow 300000000 1200000000 (py "a");
              mkRow 10000000000 10900000000 (py "c")] in
  exists run,
    automatic_matching eng kor = ret run
    /\ nth_error (run_final run) 1 = Some (py "B", None)
    /\ nth_error (to_csv (run_final run)) 2 = Some (py "B", []).
Proof.
  intros eng kor.
  destruct (unmatched_reference_has_empty_text eng kor 1
              (mkRow 5000000000 5900000000 (py "B")))
    as [(run & Hrun & _ & Hfinal & Hcsv) _].
  - reflexivity.
  - intros c [<- | [<- | []]]; vm_compute; reflexivity.
  - exists run. split; [exact Hrun |]. split; [exact Hfinal | exact Hcsv].
Defined.

(** ** Row order of the inputs *)

(** C10, as stated, fails when two rows of a track share a start time:
    the sort orders by start time alone, so the two reference rows come out
    in the order they came in and the final frames differ. *)
Lemma matching_depends_on_row_order :
  let eng := [mkRow 0 900000000 (py "A"); mkRow 0 900000000 (py "B")] in
  let eng' := [mkRow 0 900000000 (py "B"); mkRow 0 900000000 (py "A")] in
  let kor := [mkRow 300000000 1200000000 (py "a")] in
  Permutation eng eng'
  /\ exists run run',
       automatic_matching eng kor = ret run
       /\ automatic_matching eng' kor = ret run'
       /\ run_final run = [(py "A", Some (py "a")); (py "B", Some (py "a"))]
       /\ run_final run' = [(py "B", Some (py "a")); (py "A", Some (py "a"))]
       /\ run_final run <> run_final run'.
Proof.
  intros eng eng' kor. split; [apply perm_swap |].
  eexists. eexists. repeat split; try reflexivity.
  simpl. discriminate.
Qed.

(** C10, amended. When no two rows of the reference track share a start
    time, and no two rows of the shifted comparison track do, the run
    returns and is the same for any reordering of the rows of the two
    tracks; so is the final frame. *)
Theorem matching_invariant_under_row_order
    (ref ref' cmp cmp' : DataFrame)
    (Href : NoDup (map start_time ref))
    (Hcmp : NoDup (map start_time cmp))
    (Hpr : Permutation ref ref')
    (Hpc : Permutation cmp cmp') :
  automatic_matching ref cmp = automatic_matching ref' cmp'
  /\ exists run,
       automatic_matching ref cmp = ret run
       /\ automatic_matching ref' cmp' = ret run
       /\ forall st st',
            eng_df st = ref -> eng_df st' = ref' ->
            kor_shifted st = Some cmp ->
            kor_shifted st' = Some cmp' ->
            option_map matched (match run_automatic_matching st with
                                | inr s => Some s | inl _ => None end)
            = Some (Some (run_final run))
            /\ option_map matched (match run_automatic_matching st' with
                                   | inr s => Some s | inl _ => None end)
               = Some (Some (run_final run)).
Proof.
  assert (Heq : automatic_matching ref cmp = automatic_matching ref' cmp').
  { unfold automatic_matching.
    rewrite (sort_values_perm_invariant ref ref' Href Hpr).
    rewrite (sort_values_perm_invariant cmp cmp' Hcmp Hpc).
    reflexivity. }
  split; [exact Heq |].
  destruct (run_facts ref cmp) as (run & Hrun & _).
  exists run. split; [exact Hrun |]. split; [now rewrite <- Heq |].
  intros st st' He He' Hk Hk'. unfold run_automatic_matching.
  rewrite Hk, Hk', He, He', <- Heq, Hrun. simpl. split; reflexivity.
Qed.

Lemma matching_invariant_under_row_order_witness :
  let eng := [mkRow 0 900000000 (py "A"); mkRow 5000000000 5900000000 (py "B")] in
  let eng' := [mkRow 5000000000 5900000000 (py "B"); mkRow 0 900000000 (py "A")] in
  let kor := [mkRow 300000000 1200000000 (py "a");
              mkRow 10000000000 10900000000 (py "c")] in
  let kor' := [mkRow 10000000000 10900000000 (py "c");
               mkRow 300000000 1200000000 (py "a")] in
  automatic_matching eng kor = automatic_matching eng' kor'.
Proof.
  intros eng eng' kor kor'.
  apply (matching_invariant_under_row_order eng eng' kor kor').
  - simpl. repeat constructor; simpl; intuition discriminate.
  - simpl. repeat constructor; simpl; intuition discriminate.
  - apply perm_swap.
  - apply perm_swap.
Defined.

(** * Further properties of the script *)

(** ** [parse_srt_to_df] *)

Lemma replace_newline_no_newline t : ~ In 10 (replace_newline t).
Proof.
  unfold replace_newline. intros H. apply in_map_iff in H as (c & Hc & _).
  destruct (Z.eqb_spec c 10); lia.
Qed.

(** X1. Every row of the parsed frame is the text of an item of the file
    with each line feed replaced by a space: the row has as many code
    points as the item, holds a space wherever the item holds a line feed
    and the item's code point everywhere else, and so holds no line
    feed. *)
Theorem parsed_rows_have_no_newline (T : list SubRipItem) (lang : string)
    (r : Row) (Hin : In r (parse_srt_to_df T lang)) :
  ~ In 10 (text r)
  /\ exists s, In s T
               /\ length (text r) = length (sub_text s)
               /\ forall k c, nth_error (sub_text s) k = Some c ->
                    (c = 10 -> nth_error (text r) k = Some 32)
                    /\ (c <> 10 -> nth_error (text r) k = Some c).
Proof.
  apply in_parse in Hin as (s & Hs & _ & ->). split.
  - apply replace_newline_no_newline.
  - exists s. split; [exact Hs |]. split.
    + unfold row_of_sub, replace_newline. simpl. apply length_map.
    + intros k c Hk.
      pose proof (map_nth_error (fun c => if c =? 10 then 32 else c) k
                    (sub_text s) Hk) as Hm.
      cbv beta in Hm.
      destruct (Z.eqb_spec c 10); split; intros; try contradiction; exact Hm.
Qed.

Lemma parsed_rows_have_no_newline_witness :
  ~ In 10 (text (mkRow 0 1000000000 [72; 105; 32; 121; 111; 117])).
Proof.
  apply (parsed_rows_have_no_newline
           [mkSub 0 1000 [72; 105; 10; 121; 111; 117]; mkSub 2000 3000 [44032]]
           "en" (mkRow 0 1000000000 [72; 105; 32; 121; 111; 117])).
  simpl. left. reflexivity.
Defined.

Lemma filter_map_sorted {A} (key : A -> Z) (f : A -> bool) (l : list A) :
  StronglySorted Z.le (map key l) ->
  StronglySorted Z.le (map key (filter f l)).
Proof.
  induction l as [|a l IH]; simpl; intros Hs; [constructor |].
  inversion Hs as [|? ? Hl Hall]; subst.
  destruct (f a); simpl; [| now apply IH].
  constructor; [now apply IH |].
  rewrite Forall_forall in *. intros k Hk. apply Hall.
  apply in_map_iff in Hk as (x & <- & Hx). apply in_map.
  now apply filter_In in Hx.
Qed.

(** X2. The filter keeps the order of the file: when the items of the
    file are ascending in start time, with start times that
    [pd.to_timedelta] keeps, the rows of the parsed frame are ascending in
    start time, for either language, and their start times are counts of
    nanoseconds within an int64. *)
Theorem parse_keeps_time_order (T : list SubRipItem) (lang : string)
    (Hsorted : StronglySorted Z.le (map sub_start T))
    (Hrep : Forall (fun s => representable_ms (sub_start s)) T) :
  StronglySorted Z.le (map start_time (parse_srt_to_df T lang))
  /\ Forall (fun r => 0 <= start_time r < 9223372036854775808)
       (parse_srt_to_df T lang).
Proof.
  split.
  - unfold parse_srt_to_df. rewrite parse_loop_filter. simpl.
    rewrite map_map. simpl.
    apply (filter_map_sorted (fun s => to_timedelta_ms (sub_start s))).
    clear lang Hrep. induction T as [|a T IH]; simpl in *; [constructor |].
    inversion Hsorted as [|? ? Hl Hall]; subst.
    constructor; [now apply IH |].
    rewrite Forall_forall in *. intros k Hk.
    apply in_map_iff in Hk as (x & <- & Hx).
    specialize (Hall _ (in_map sub_start _ _ Hx)).
    unfold to_timedelta_ms. lia.
  - apply Forall_forall. intros r Hr.
    apply in_parse in Hr as (s & Hs & _ & ->).
    rewrite Forall_forall in Hrep. specialize (Hrep s Hs).
    unfold representable_ms, max_timedelta_ms in Hrep.
    unfold row_of_sub, to_timedelta_ms. simpl. lia.
Qed.

Lemma parse_keeps_time_order_witness :
  StronglySorted Z.le
    (map start_time
       (parse_srt_to_df
          [mkSub 0 1000 [72; 105]; mkSub 2000 3000 [44032]; mkSub 4000 5000 [66]]
          "en")).
Proof.
  apply parse_keeps_time_order.
  - simpl. repeat constructor; lia.
  - repeat constructor; unfold representable_ms, max_timedelta_ms; simpl; lia.
Defined.

(** X3. The two [continue]s test the tag against ['en'] and ['ko'] only:
    with any other tag no item is filtered out. *)
Theorem parse_other_tag_keeps_all (T : list SubRipItem) (lang : string)
    (Hen : lang <> "en"%string) (Hko : lang <> "ko"%string) :
  parse_srt_to_df T lang = map row_of_sub T.
Proof.
  unfold parse_srt_to_df. rewrite parse_loop_filter. simpl. f_equal.
  apply String.eqb_neq in Hen, Hko.
  induction T as [|a T IH]; simpl; [reflexivity |].
  unfold keeps at 1. rewrite Hen, Hko. simpl. now rewrite IH.
Qed.

Lemma parse_other_tag_keeps_all_witness :
  parse_srt_to_df [mkSub 0 1000 [72; 105]; mkSub 2000 3000 [44032]] "EN"
  = [mkRow 0 1000000000 [72; 105]; mkRow 2000000000 3000000000 [44032]].
Proof.
  apply (parse_other_tag_keeps_all
           [mkSub 0 1000 [72; 105]; mkSub 2000 3000 [44032]] "EN");
    discriminate.
Defined.

(** ** The shift as an operation on frames *)

Lemma shift_start_compose a b r :
  shift_start b (shift_start a r) = shift_start (a + b) r.
Proof. unfold shift_start. simpl. f_equal. lia. Qed.

Lemma shift_start_zero r : shift_start 0 r = r.
Proof. destruct r. unfold shift_start. simpl. f_equal. lia. Qed.

(** X4. Shifts add up and undo: shifting by [a] and then by [b] is
    shifting by [a + b], shifting back by [-a] gives the frame back, and a
    shift of zero changes nothing. *)
Theorem shift_round_trip (df : DataFrame) (a b : Timedelta) :
  shifted (shifted df a) b = shifted df (a + b)
  /\ shifted (shifted df a) (- a) = df
  /\ shifted df 0 = df.
Proof.
  assert (H0 : forall l, shifted l 0 = l).
  { intros l. unfold shifted. rewrite <- (map_id l) at 2.
    apply map_ext, shift_start_zero. }
  assert (Hc : forall x y, shifted (shifted df x) y = shifted df (x + y)).
  { intros x y. unfold shifted. rewrite map_map.
    apply map_ext. intros r. apply shift_start_compose. }
  split; [apply Hc |]. split; [| apply H0].
  rewrite Hc. replace (a + - a) with 0 by lia. apply H0.
Qed.

Lemma insert_sorted_shift s r l :
  insert_sorted (shift_start s r) (shifted l s)
  = shifted (insert_sorted r l) s.
Proof.
  unfold shifted. induction l as [|h t IH]; simpl; [reflexivity |].
  replace (start_time r - s <=? start_time h - s)
    with (start_time r <=? start_time h).
  2:{ destruct (Z.leb_spec (start_time r) (start_time h)),
        (Z.leb_spec (start_time r - s) (start_time h - s)); lia. }
  destruct (start_time r <=? start_time h); simpl; [reflexivity |].
  now rewrite IH.
Qed.

Lemma sort_values_shift_commute (df : DataFrame) (shift : Timedelta) :
  sort_values (shifted df shift) = shifted (sort_values df) shift.
Proof.
  induction df as [|r rest IH]; simpl; [reflexivity |].
  fold (shifted rest shift). rewrite IH. apply insert_sorted_shift.
Qed.

(** X5. Sorting and shifting commute: the sorted shifted track is the
    sorted track, shifted; its rows carry the texts and end times of the
    sorted unshifted track in the same order. *)
Theorem sort_values_shifted (df : DataFrame) (shift : Timedelta) :
  sort_values (shifted df shift) = shifted (sort_values df) shift
  /\ map text (sort_values (shifted df shift)) = map text (sort_values df)
  /\ map end_time (sort_values (shifted df shift))
     = map end_time (sort_values df).
Proof.
  rewrite sort_values_shift_commute. unfold shifted. rewrite !map_map.
  repeat split; reflexivity.
Qed.

(** X6. Only the start moves: with an offset that is not negative a track
    whose rows all start before they end still has that after the
    shift. *)
Theorem shift_keeps_start_before_end (df : DataFrame) (shift : Timedelta)
    (Hshift : 0 <= shift)
    (Hdf : Forall (fun r => start_time r <= end_time r) df) :
  Forall (fun r => start_time r <= end_time r) (shifted df shift).
Proof.
  unfold shifted. apply Forall_map.
  eapply Forall_impl; [| exact Hdf]. simpl. intros r Hr. lia.
Qed.

Lemma shift_keeps_start_before_end_witness :
  Forall (fun r => start_time r <= end_time r)
    (shifted [mkRow 1000 2000 [97]; mkRow 3000 3500 [98]] 500).
Proof.
  apply shift_keeps_start_before_end; [lia |].
  repeat constructor; simpl; lia.
Defined.

(** ** The manual pair builder with Python's indices *)




Lemma nth_error_combine_map {A B C D} (f : A -> C) (g : B -> D) :
  forall (l : list A) (l' : list B) p a b,
    nth_error l p = Some a -> nth_error l' p = Some b ->
    nth_error (combine (map f l) (map g l')) p = Some (f a, g b).
Proof.
  induction l as [|x l IH]; intros [|y l'] [|p] a b Ha Hb;
    simpl in *; try discriminate.
  - injection Ha as ->. injection Hb as ->. reflexivity.
  - now apply IH.
Qed.

(** X8. An index from [-n] to [-1] counts from the end of its track: with
    every index in [-n <= i < n] the builder shows [min] of the two lengths
    rows, and the row at position [p] pairs the reference row at position
    [i] (or [i + n] when [i] is negative) with the comparison row found
    the same way. *)
Theorem manual_negative_index_from_end (ref cmp : DataFrame)
    (ref_indices cmp_indices : list Z)
    (Href : Forall (in_iloc_range ref) ref_indices)
    (Hcmp : Forall (in_iloc_range cmp) cmp_indices) :
  exists combined,
    show_manual_match ref cmp (ret (LitSeq ref_indices))
      (ret (LitSeq cmp_indices)) = Table combined
    /\ length combined = Nat.min (length ref_indices) (length cmp_indices)
    /\ forall p i j,
         nth_error ref_indices p = Some i ->
         nth_error cmp_indices p = Some j ->
         exists e k,
           nth_error ref (Z.to_nat (if i <? 0 then i + len ref else i)) = Some e
           /\ nth_error cmp (Z.to_nat (if j <? 0 then j + len cmp else j)) = Some k
           /\ nth_error combined p = Some (manual_pair e k).
Proof.
  unfold show_manual_match, manual_match_body. simpl.
  rewrite (iloc_in_range ref ref_indices), (iloc_in_range cmp cmp_indices)
    by assumption.
  simpl. rewrite zip_loop_combine. simpl.
  eexists. split; [reflexivity |].
  split; [now rewrite length_map, length_combine, !length_map |].
  intros p i j Hi Hj.
  assert (Hir : in_iloc_range ref i).
  { rewrite Forall_forall in Href. eapply Href, nth_error_In, Hi. }
  assert (Hjr : in_iloc_range cmp j).
  { rewrite Forall_forall in Hcmp. eapply Hcmp, nth_error_In, Hj. }
  unfold in_iloc_range, len in Hir, Hjr.
  exists (nth (Z.to_nat (iloc_pos (len ref) i)) ref (mkRow 0 0 [])),
    (nth (Z.to_nat (iloc_pos (len cmp) j)) cmp (mkRow 0 0 [])).
  unfold iloc_pos, len.
  split; [apply nth_nth_error; destruct (Z.ltb_spec i 0); lia |].
  split; [apply nth_nth_error; destruct (Z.ltb_spec j 0); lia |].
  rewrite nth_error_map.
  rewrite (nth_error_combine_map _ _ ref_indices cmp_indices p i j Hi Hj).
  reflexivity.
Qed.

Lemma manual_negative_index_from_end_witness :
  let ref := [mkRow 0 900 (py "A"); mkRow 5000 5900 (py "B")] in
  let cmp := [mkRow 300 1200 (py "a"); mkRow 7000 7500 (py "b")] in
  exists combined,
    show_manual_match ref cmp (ret (LitSeq [-1])) (ret (LitSeq [-2]))
    = Table combined
    /\ nth_error combined 0
       = Some (manual_pair (mkRow 5000 5900 (py "B")) (mkRow 300 1200 (py "a"))).
Proof.
  intros ref cmp.
  destruct (manual_negative_index_from_end ref cmp [-1] [-2])
    as (combined & Hshow & _ & Hrow).
  - repeat constructor; unfold len; simpl; lia.
  - repeat constructor; unfold len; simpl; lia.
  - exists combined. split; [exact Hshow |].
    destruct (Hrow 0%nat (-1) (-2) eq_refl eq_refl) as (e & k & He & Hk & Hp).
    vm_compute in He, Hk. injection He as <-. injection Hk as <-. exact Hp.
Defined.

(** ** More on the automatic matching *)

Section NearestOrder.

Variable right_values : list Z.
Hypothesis right_sorted : StronglySorted Z.le right_values.
Variable tolerance : Z.

Lemma cnt_le_lt x y l : x < y -> cnt_le x l <= cnt_lt y l.
Proof.
  intros Hxy. induction l as [|a l IH]; [reflexivity |].
  rewrite cnt_le_cons, cnt_lt_cons.
  destruct (Z.leb_spec a x), (Z.ltb_spec a y); lia.
Qed.

(** The selection does not go backwards as the left value grows. *)
Lemma nearest_at_mono x y :
  x <= y ->
  nearest_at right_values tolerance x <> -1 ->
  nearest_at right_values tolerance y <> -1 ->
  nearest_at right_values tolerance x <= nearest_at right_values tolerance y.
Proof.
  intros Hxy.
  destruct (Z.eq_dec x y) as [-> | Hne]; [intros; lia |].
  pose proof (cnt_le_lt x y right_values ltac:(lia)) as Hcross.
  pose proof (cnt_le_bounds x right_values) as Hbx.
  pose proof (cnt_le_bounds y right_values) as Hby.
  pose proof (cnt_lt_bounds x right_values) as Hfx.
  pose proof (cnt_lt_bounds y right_values) as Hfy.
  pose proof (cnt_le_mono x y right_values Hxy) as Hble.
  pose proof (cnt_lt_mono x y right_values Hxy) as Hflt.
  pose proof (get_mono right_values right_sorted) as Hmono.
  pose proof (get_le_iff x right_values right_sorted) as Hlex.
  pose proof (get_le_iff y right_values right_sorted) as Hley.
  pose proof (get_ge_iff x right_values right_sorted) as Hgex.
  pose proof (get_ge_iff y right_values right_sorted) as Hgey.
  assert (Hbxv : 0 <= cnt_le x right_values - 1 ->
                 get right_values (cnt_le x right_values - 1) <= x)
    by (intros; apply Hlex; lia).
  assert (Hbyv : 0 <= cnt_le y right_values - 1 ->
                 get right_values (cnt_le y right_values - 1) <= y)
    by (intros; apply Hley; lia).
  assert (Hfxv : cnt_lt x right_values < len right_values ->
                 x <= get right_values (cnt_lt x right_values))
    by (intros; apply Hgex; lia).
  assert (Hfyv : cnt_lt y right_values < len right_values ->
                 y <= get right_values (cnt_lt y right_values))
    by (intros; apply Hgey; lia).
  assert (H1 : 0 <= cnt_le x right_values - 1 ->
               get right_values (cnt_le x right_values - 1)
               <= get right_values (cnt_le y right_values - 1))
    by (intros; apply Hmono; lia).
  assert (H2 : 0 <= cnt_le y right_values - 1 ->
               cnt_le y right_values <= cnt_le x right_values ->
               get right_values (cnt_le y right_values - 1)
               <= get right_values (cnt_le x right_values - 1))
    by (intros; apply Hmono; lia).
  assert (H3 : cnt_lt y right_values < len right_values ->
               get right_values (cnt_lt x right_values)
               <= get right_values (cnt_lt y right_values))
    by (intros; apply Hmono; lia).
  assert (H4 : cnt_lt x right_values < len right_values ->
               cnt_lt y right_values <= cnt_lt x right_values ->
               get right_values (cnt_lt y right_values)
               <= get right_values (cnt_lt x right_values))
    by (intros; apply Hmono; lia).
  unfold nearest_at, nearest_choice.
  destruct (backward_at_cases right_values tolerance x)
    as [(-> & Hb) | (-> & Hb0 & Hb)];
    destruct (forward_at_cases right_values tolerance x)
      as [(-> & Hf) | (-> & Hf0 & Hf)];
    destruct (backward_at_cases right_values tolerance y)
      as [(-> & Hb') | (-> & Hb0' & Hb')];
    destruct (forward_at_cases right_values tolerance y)
      as [(-> & Hf') | (-> & Hf0' & Hf')];
    simpl;
    repeat match goal with
           | |- context [?a =? ?b] => destruct (Z.eqb_spec a b); simpl
           | |- context [?a <=? ?b] => destruct (Z.leb_spec a b); simpl
           end; intros Hm Hm'; try lia.
Qed.

End NearestOrder.

Section RunOrder.

Lemma sorted_rows_start (e2 : DataFrame) i i' r r' :
  StronglySorted Z.le (map start_time e2) ->
  (i <= i')%nat ->
  nth_error e2 i = Some r -> nth_error e2 i' = Some r' ->
  start_time r <= start_time r'.
Proof.
  intros Hs Hii Hr Hr'.
  destruct (get_start_time e2 i r Hr) as [Hg _].
  destruct (get_start_time e2 i' r' Hr') as [Hg' Hrange].
  rewrite <- Hg, <- Hg'.
  apply (get_mono _ Hs (Z.of_nat i) (Z.of_nat i')); [lia | exact (proj2 Hrange)].
Qed.

Lemma matched_pairs_eng_column eng kor run :
  automatic_matching eng kor = ret run ->
  map fst (run_matched_pairs run) = map text (sort_values eng).
Proof.
  rewrite automatic_matching_run. intros H. injection H as <-.
  cbn [run_matched_pairs]. rewrite combine_map_r, !map_map. reflexivity.
Qed.

Lemma NoDup_map_injective {A B} (f : A -> B) (l : list A) a b :
  NoDup (map f l) -> In a l -> In b l -> f a = f b -> a = b.
Proof.
  induction l as [|x l IH]; simpl; intros Hnd Ha Hb Hf; [contradiction |].
  inversion Hnd as [|? ? Hnx Hnd']; subst.
  destruct Ha as [-> | Ha], Hb as [-> | Hb]; try reflexivity.
  - exfalso. apply Hnx. rewrite Hf. now apply in_map.
  - exfalso. apply Hnx. rewrite <- Hf. now apply in_map.
  - now apply IH.
Qed.

End RunOrder.

(** X9. Matches never cross: along the matched rows, which are in
    ascending reference start, the selected comparison positions do not
    go backwards, and neither do the start times of the selected
    comparison rows. *)
Theorem matches_never_cross (ref cmp : DataFrame) :
  exists run,
    automatic_matching ref cmp = ret run
    /\ forall i i' m m',
         (i <= i')%nat ->
         nth_error (right_indexer run) i = Some m ->
         nth_error (right_indexer run) i' = Some m' ->
         m <> -1 -> m' <> -1 ->
         m <= m'
         /\ forall c c',
              take_right (run_k2 run) m = Some c ->
              take_right (run_k2 run) m' = Some c' ->
              start_time c <= start_time c'.
Proof.
  destruct (run_facts ref cmp) as (run & Hrun & He2 & Hk2 & Hidx & _).
  exists run. split; [exact Hrun |].
  intros i i' m m' Hii Hm Hm' Hne Hne'.
  assert (Hk : StronglySorted Z.le (map start_time (run_k2 run)))
    by (rewrite Hk2; apply sort_values_sorted).
  assert (He : StronglySorted Z.le (map start_time (run_e2 run)))
    by (rewrite He2; apply sort_values_sorted).
  pose proof (right_indexer_range run i m Hidx Hm) as Hr.
  pose proof (right_indexer_range run i' m' Hidx Hm') as Hr'.
  assert (Hle : m <= m').
  { rewrite Hidx, nth_error_map in Hm, Hm'.
    destruct (nth_error (run_e2 run) i) as [r|] eqn:Er; [| discriminate].
    destruct (nth_error (run_e2 run) i') as [r'|] eqn:Er'; [| discriminate].
    injection Hm as Hm. injection Hm' as Hm'. subst m m'.
    apply nearest_at_mono; try assumption.
    eapply sorted_rows_start; eassumption. }
  split; [exact Hle |].
  intros c c' Hc Hc'.
  destruct (take_right_Some _ _ _ Hr Hc) as [H0 Hnth].
  destruct (take_right_Some _ _ _ Hr' Hc') as [H0' Hnth'].
  eapply (sorted_rows_start (run_k2 run)); [exact Hk | | exact Hnth | exact Hnth'].
  lia.
Qed.

Lemma matches_never_cross_witness :
  let ref := [mkRow 0 900000000 (py "A"); mkRow 9800000000 9900000000 (py "B")] in
  let cmp := [mkRow 300000000 1200000000 (py "a");
              mkRow 10000000000 10900000000 (py "c")] in
  exists run,
    automatic_matching ref cmp = ret run
    /\ right_indexer run = [0; 1]
    /\ 0 <= 1.
Proof.
  intros ref cmp.
  destruct (matches_never_cross ref cmp) as (run & Hrun & H).
  exists run. split; [exact Hrun |].
  vm_compute in Hrun. injection Hrun as <-.
  split; [reflexivity |].
  exact (proj1 (H 0%nat 1%nat 0 1 (le_S _ _ (le_n _)) eq_refl eq_refl
                  ltac:(discriminate) ltac:(discriminate))).
Defined.

(** X10. An exact hit is taken: when some comparison row starts exactly
    at the start of a reference row, that reference row is matched with a
    comparison row of that same start time. *)
Theorem exact_start_is_matched (ref cmp : DataFrame) (i : nat) (r c0 : Row)
    (Hr : nth_error (sort_values ref) i = Some r)
    (Hc0 : In c0 cmp)
    (Hsame : start_time c0 = start_time r) :
  exists run c,
    automatic_matching ref cmp = ret run
    /\ In c cmp
    /\ start_time c = start_time r
    /\ nth_error (run_matched_pairs run) i = Some (text r, Some (text c)).
Proof.
  destruct (run_facts ref cmp)
    as (run & Hrun & He2 & Hk2 & Hidx & Hpair & _).
  rewrite <- He2 in Hr.
  set (m := nearest_at (map start_time (run_k2 run)) tolerance_1s (start_time r)).
  assert (Hm : nth_error (right_indexer run) i = Some m).
  { rewrite Hidx, nth_error_map, Hr. reflexivity. }
  assert (Hk : StronglySorted Z.le (map start_time (run_k2 run)))
    by (rewrite Hk2; apply sort_values_sorted).
  assert (Hin0 : In c0 (run_k2 run)).
  { rewrite Hk2. eapply Permutation_in; [| exact Hc0].
    apply Permutation_sym, sort_values_perm. }
  apply In_nth_error in Hin0 as (j & Hj).
  destruct (get_start_time (run_k2 run) j c0 Hj) as [Hg Hjr].
  assert (Hne : m <> -1).
  { intros Heq.
    pose proof (nearest_at_none (map start_time (run_k2 run)) Hk tolerance_1s
                  tolerance_1s_nonneg (start_time r) (Z.of_nat j) Heq Hjr) as Hn.
    rewrite Hg, Hsame in Hn. unfold tolerance_1s in Hn. lia. }
  destruct (nearest_at_range (map start_time (run_k2 run)) tolerance_1s
              (start_time r)) as [Hn | Hn]; fold m in Hn; [contradiction |].
  destruct (take_right_in_range (run_k2 run) m Hn) as (c & Htake & Hnth & Hget).
  pose proof (nearest_at_closest (map start_time (run_k2 run)) Hk tolerance_1s
                tolerance_1s_nonneg (start_time r) (Z.of_nat j)) as Hc.
  fold m in Hc. specialize (Hc Hne Hjr). cbv zeta in Hc.
  rewrite Hget, Hg, Hsame in Hc.
  exists run, c. split; [exact Hrun |].
  split.
  { eapply Permutation_in; [apply sort_values_perm |].
    rewrite <- Hk2. eapply nth_error_In, Hnth. }
  split; [lia |].
  rewrite (Hpair i r Hr m Hm), Htake. reflexivity.
Qed.

Lemma exact_start_is_matched_witness :
  let ref := [mkRow 5000000000 5900000000 (py "B"); mkRow 0 900000000 (py "A")] in
  let cmp := [mkRow 4800000000 5200000000 (py "x");
              mkRow 5000000000 6000000000 (py "b")] in
  exists run c,
    automatic_matching ref cmp = ret run
    /\ In c cmp
    /\ start_time c = 5000000000
    /\ nth_error (run_matched_pairs run) 1 = Some (py "B", Some (text c)).
Proof.
  intros ref cmp.
  apply (exact_start_is_matched ref cmp 1 (mkRow 5000000000 5900000000 (py "B"))
           (mkRow 5000000000 6000000000 (py "b"))).
  - reflexivity.
  - right. left. reflexivity.
  - reflexivity.
Defined.

Lemma selected_row_in_pairs ref cmp run i m c :
  automatic_matching ref cmp = ret run ->
  nth_error (right_indexer run) i = Some m ->
  take_right (run_k2 run) m = Some c ->
  In c cmp
  /\ exists e, nth_error (run_matched_pairs run) i = Some (e, Some (text c)).
Proof.
  intros Hrun Hm Hc.
  destruct (run_facts ref cmp)
    as (run' & Hrun' & He2 & Hk2 & Hidx & Hpair & _).
  rewrite Hrun in Hrun'. injection Hrun' as <-.
  destruct (take_right_Some _ _ _ (right_indexer_range run i m Hidx Hm) Hc)
    as [_ Hnth].
  split.
  - eapply Permutation_in; [apply sort_values_perm |].
    rewrite <- Hk2. eapply nth_error_In, Hnth.
  - pose proof Hm as Hm2. rewrite Hidx, nth_error_map in Hm2.
    destruct (nth_error (run_e2 run) i) as [r|] eqn:Er; [| discriminate].
    exists (text r). rewrite (Hpair i r Er m Hm), Hc. reflexivity.
Qed.

(** X11. The final frame invents no text: its English column is the texts
    of the reference track in ascending start order followed by one empty
    text per unmatched record, and every comparison text in it is the text
    of a row of the comparison track. *)
Theorem final_texts_come_from_tracks (ref cmp : DataFrame) :
  exists run,
    automatic_matching ref cmp = ret run
    /\ map fst (run_final run)
       = map text (sort_values ref)
         ++ repeat ([] : pystr) (length (run_unmatched_kor run))
    /\ forall e t, In (e, Some t) (run_final run) ->
                   exists c, In c cmp /\ text c = t.
Proof.
  destruct (run_facts ref cmp)
    as (run & Hrun & He2 & Hk2 & Hidx & Hpair & Hlen & Htimes & Hun & Hfinal).
  exists run. split; [exact Hrun |]. split.
  - rewrite Hfinal, map_app.
    f_equal; [exact (matched_pairs_eng_column ref cmp run Hrun) |].
    rewrite Hun.
    pose proof (f_equal (@length _)
                  (unmatched_records (run_k2 run) (run_matched_kor_times run)))
      as Hl.
    rewrite !length_map in Hl. rewrite Hl.
    rewrite map_map. simpl.
    generalize (filter (fun c => negb (isin (start_time c)
                                         (run_matched_kor_times run)))
                       (run_k2 run)).
    intros l. induction l as [|a l IH]; simpl; [reflexivity | now rewrite IH].
  - intros e t Hin. rewrite Hfinal in Hin. apply in_app_or in Hin as [Hin | Hin].
    + apply In_nth_error in Hin as (i & Hi).
      assert (Hlt : (i < length (run_e2 run))%nat).
      { rewrite He2, sort_values_length, <- Hlen. apply nth_error_Some. congruence. }
      destruct (nth_error (run_e2 run) i) as [r|] eqn:Er.
      2:{ apply nth_error_None in Er. lia. }
      set (m := nearest_at (map start_time (run_k2 run)) tolerance_1s (start_time r)).
      assert (Hm : nth_error (right_indexer run) i = Some m).
      { rewrite Hidx, nth_error_map, Er. reflexivity. }
      rewrite (Hpair i r Er m Hm) in Hi. injection Hi as _ Ht.
      destruct (take_right (run_k2 run) m) as [c|] eqn:Ec; [| discriminate].
      injection Ht as <-. exists c. split; [| reflexivity].
      exact (proj1 (selected_row_in_pairs ref cmp run i m c Hrun Hm Ec)).
    + apply in_map_iff in Hin as (c & Hc & Hf). injection Hc as _ <-.
      apply filter_In in Hf as [Hf _]. exists c. split; [| reflexivity].
      eapply Permutation_in; [apply sort_values_perm |]. now rewrite <- Hk2.
Qed.

Lemma final_texts_come_from_tracks_witness :
  let ref := [mkRow 5000000000 5900000000 (py "B"); mkRow 0 900000000 (py "A")] in
  let cmp := [mkRow 300000000 1200000000 (py "a");
              mkRow 10000000000 10900000000 (py "c")] in
  exists run,
    automatic_matching ref cmp = ret run
    /\ exists c, In c cmp /\ text c = py "c".
Proof.
  intros ref cmp.
  destruct (final_texts_come_from_tracks ref cmp) as (run & Hrun & _ & H).
  exists run. split; [exact Hrun |].
  apply (H []). vm_compute in Hrun. injection Hrun as <-.
  simpl. right. right. left. reflexivity.
Defined.

(** X12. No comparison start time is lost: for every row of the
    comparison track the final frame holds the text of a comparison row
    with the same start time, and when the start times of the comparison
    track are all different it holds the text of that very row. *)
Theorem every_comparison_start_is_kept (ref cmp : DataFrame) (c : Row)
    (Hc : In c cmp) :
  exists run,
    automatic_matching ref cmp = ret run
    /\ (exists c', In c' cmp
                   /\ start_time c' = start_time c
                   /\ In (Some (text c')) (map snd (run_final run)))
    /\ (NoDup (map start_time cmp) ->
        In (Some (text c)) (map snd (run_final run))).
Proof.
  destruct (run_facts ref cmp)
    as (run & Hrun & He2 & Hk2 & Hidx & Hpair & Hlen & Htimes & Hun & Hfinal).
  exists run. split; [exact Hrun |].
  assert (Hkept : exists c', In c' cmp
                    /\ start_time c' = start_time c
                    /\ In (Some (text c')) (map snd (run_final run))).
  { assert (Hk : In c (run_k2 run)).
    { rewrite Hk2. eapply Permutation_in; [| exact Hc].
      apply Permutation_sym, sort_values_perm. }
    destruct (isin (start_time c) (run_matched_kor_times run)) eqn:E.
    - apply isin_In, Htimes in E. destruct E as (i & m & c' & Hm & Htake & Heq).
      destruct (selected_row_in_pairs ref cmp run i m c' Hrun Hm Htake)
        as (Hin & e & Hp).
      exists c'. split; [exact Hin |]. split; [exact Heq |].
      rewrite Hfinal, map_app. apply in_or_app. left.
      apply in_map_iff. exists (e, Some (text c')). split; [reflexivity |].
      eapply nth_error_In, Hp.
    - exists c. split; [exact Hc |]. split; [reflexivity |].
      rewrite Hfinal, map_app. apply in_or_app. right.
      rewrite map_map. apply in_map_iff. exists c. split; [reflexivity |].
      apply filter_In. split; [exact Hk |]. now rewrite E. }
  split; [exact Hkept |].
  intros Hnd. destruct Hkept as (c' & Hin' & Heq & Hf).
  now rewrite <- (NoDup_map_injective start_time cmp c' c Hnd Hin' Hc Heq).
Qed.

Lemma every_comparison_start_is_kept_witness :
  let ref := [mkRow 5000000000 5900000000 (py "B"); mkRow 0 900000000 (py "A")] in
  let cmp := [mkRow 300000000 1200000000 (py "a");
              mkRow 10000000000 10900000000 (py "c")] in
  exists run,
    automatic_matching ref cmp = ret run
    /\ In (Some (py "c")) (map snd (run_final run)).
Proof.
  intros ref cmp.
  destruct (every_comparison_start_is_kept ref cmp
              (mkRow 10000000000 10900000000 (py "c")))
    as (run & Hrun & _ & H).
  - right. left. reflexivity.
  - exists run. split; [exact Hrun |]. apply H.
    simpl. repeat constructor; simpl; intuition discriminate.
Defined.

Section Translation.

Variable s : Timedelta.

Lemma cnt_le_translate x l :
  cnt_le (x - s) (map (fun v => v - s) l) = cnt_le x l.
Proof.
  induction l as [|a l IH]; [reflexivity |].
  simpl map. rewrite !cnt_le_cons, IH.
  destruct (Z.leb_spec (a - s) (x - s)), (Z.leb_spec a x); lia.
Qed.

Lemma cnt_lt_translate x l :
  cnt_lt (x - s) (map (fun v => v - s) l) = cnt_lt x l.
Proof.
  induction l as [|a l IH]; [reflexivity |].
  simpl map. rewrite !cnt_lt_cons, IH.
  destruct (Z.ltb_spec (a - s) (x - s)), (Z.ltb_spec a x); lia.
Qed.

Lemma len_map {A B} (f : A -> B) (l : list A) : len (map f l) = len l.
Proof. unfold len. now rewrite length_map. Qed.

Lemma get_translate l k :
  0 <= k < len l -> get (map (fun v => v - s) l) k = get l k - s.
Proof.
  intros Hk. unfold get, len in *.
  rewrite (nth_indep _ 0 (0 - s)) by (rewrite length_map; lia).
  apply (map_nth (fun v => v - s)).
Qed.

Lemma backward_at_translate l tolerance x :
  backward_at (map (fun v => v - s) l) tolerance (x - s)
  = backward_at l tolerance x.
Proof.
  unfold backward_at. rewrite cnt_le_translate.
  pose proof (cnt_le_bounds x l) as Hb.
  destruct (Z.eqb_spec (cnt_le x l - 1) (-1)); simpl; [reflexivity |].
  rewrite get_translate by lia.
  now replace (x - s - (get l (cnt_le x l - 1) - s))
    with (x - get l (cnt_le x l - 1)) by lia.
Qed.

Lemma forward_at_translate l tolerance x :
  forward_at (map (fun v => v - s) l) tolerance (x - s)
  = forward_at l tolerance x.
Proof.
  unfold forward_at. rewrite cnt_lt_translate, len_map.
  pose proof (cnt_lt_bounds x l) as Hf.
  pose proof (cnt_le_bounds x l) as Hb.
  destruct (Z.eqb_spec (cnt_lt x l) (len l)); simpl; [reflexivity |].
  destruct (Z.eqb_spec (cnt_lt x l) (-1)); simpl; [reflexivity |].
  rewrite get_translate by lia.
  now replace (get l (cnt_lt x l) - s - (x - s))
    with (get l (cnt_lt x l) - x) by lia.
Qed.

(** Only the difference between the two sides counts for the choice. *)
Lemma nearest_at_translate l tolerance x :
  nearest_at (map (fun v => v - s) l) tolerance (x - s)
  = nearest_at l tolerance x.
Proof.
  unfold nearest_at. rewrite backward_at_translate, forward_at_translate.
  unfold nearest_choice.
  pose proof (cnt_le_bounds x l) as Hb.
  pose proof (cnt_lt_bounds x l) as Hf.
  destruct (backward_at_cases l tolerance x) as [(-> & _) | (-> & Hb0 & _)];
    destruct (forward_at_cases l tolerance x) as [(-> & _) | (-> & Hf0 & _)];
    repeat match goal with
           | |- context [?a =? -1] => destruct (Z.eqb_spec a (-1)); simpl
           end; try reflexivity; try lia.
  rewrite !get_translate by lia.
  replace (x - s - (get l (cnt_le x l - 1) - s))
    with (x - get l (cnt_le x l - 1)) by lia.
  replace (get l (cnt_lt x l) - s - (x - s))
    with (get l (cnt_lt x l) - x) by lia.
  reflexivity.
Qed.

Lemma shifted_start_times df :
  map start_time (shifted df s) = map (fun v => v - s) (map start_time df).
Proof. unfold shifted. now rewrite !map_map. Qed.

Lemma take_right_shifted df m :
  take_right (shifted df s) m = option_map (shift_start s) (take_right df m).
Proof.
  unfold take_right, shifted. destruct (m =? -1); [reflexivity |].
  apply nth_error_map.
Qed.

End Translation.

(** X13. Only the offset between the two tracks counts: moving every
    start time of both tracks by the same amount leaves the selections and
    the final frame as they were. *)
Theorem matching_translation_invariant (ref cmp : DataFrame) (s : Timedelta) :
  exists run run',
    automatic_matching ref cmp = ret run
    /\ automatic_matching (shifted ref s) (shifted cmp s) = ret run'
    /\ right_indexer run' = right_indexer run
    /\ run_final run' = run_final run.
Proof.
  destruct (run_facts ref cmp)
    as (run & Hrun & He2 & Hk2 & Hidx & Hpair & Hlen & Htimes & Hun & Hfinal).
  destruct (run_facts (shifted ref s) (shifted cmp s))
    as (run' & Hrun' & He2' & Hk2' & Hidx' & Hpair' & Hlen' & Htimes' & Hun'
        & Hfinal').
  exists run, run'. split; [exact Hrun |]. split; [exact Hrun' |].
  assert (He2s : run_e2 run' = shifted (run_e2 run) s)
    by (rewrite He2', He2; apply sort_values_shift_commute).
  assert (Hk2s : run_k2 run' = shifted (run_k2 run) s)
    by (rewrite Hk2', Hk2; apply sort_values_shift_commute).
  assert (Hix : right_indexer run' = right_indexer run).
  { rewrite Hidx', Hidx, He2s, Hk2s. unfold shifted at 2. rewrite map_map.
    apply map_ext. intros l. rewrite shifted_start_times. simpl.
    apply nearest_at_translate. }
  split; [exact Hix |].
  assert (Htext : forall m,
            option_map text (take_right (run_k2 run') m)
            = option_map text (take_right (run_k2 run) m)).
  { intros m. rewrite Hk2s, take_right_shifted.
    now destruct (take_right (run_k2 run) m). }
  assert (Hpairs : run_matched_pairs run' = run_matched_pairs run).
  { apply nth_error_ext. intros n.
    destruct (nth_error (run_e2 run) n) as [r|] eqn:Er.
    - assert (Er' : nth_error (run_e2 run') n = Some (shift_start s r)).
      { rewrite He2s. unfold shifted. now rewrite nth_error_map, Er. }
      assert (Hm : nth_error (right_indexer run) n
                   = Some (nearest_at (map start_time (run_k2 run)) tolerance_1s
                             (start_time r))).
      { rewrite Hidx, nth_error_map, Er. reflexivity. }
      rewrite (Hpair n r Er _ Hm).
      rewrite <- Hix in Hm. rewrite (Hpair' n _ Er' _ Hm), Htext. reflexivity.
    - assert (Hn : (length ref <= n)%nat).
      { apply nth_error_None in Er.
        now rewrite He2, sort_values_length in Er. }
      rewrite (proj2 (nth_error_None (run_matched_pairs run) n)) by lia.
      apply nth_error_None. rewrite Hlen'. unfold shifted.
      rewrite length_map. exact Hn. }
  assert (Hsel : forall c,
            isin (start_time c - s) (run_matched_kor_times run')
            = isin (start_time c) (run_matched_kor_times run)).
  { intros c. apply eq_iff_eq_true.
    rewrite !isin_In, Htimes', Htimes. unfold start_selected.
    rewrite Hix, Hk2s. split.
    - intros (i & m & c0 & Hm & Ht & Heq).
      rewrite take_right_shifted in Ht.
      destruct (take_right (run_k2 run) m) as [c1|] eqn:Ec; [| discriminate].
      injection Ht as <-. exists i, m, c1. simpl in Heq.
      split; [exact Hm |]. split; [exact Ec | lia].
    - intros (i & m & c0 & Hm & Ht & Heq).
      exists i, m, (shift_start s c0).
      rewrite take_right_shifted, Ht. simpl.
      split; [exact Hm |]. split; [reflexivity | lia]. }
  rewrite Hfinal', Hfinal. f_equal; [exact Hpairs |].
  rewrite Hk2s. unfold shifted. rewrite filter_map_swap, map_map.
  simpl. unfold unmatched_record at 1. simpl.
  f_equal. apply filter_ext. intros c. now rewrite Hsel.
Qed.

(** ** The stored result and the file *)

Section StoredResult.

Lemma section_download_delete_ok w click :
  file_matches_session w ->
  exists w',
    section_download_delete w click = inr w'
    /\ file_matches_session w'
    /\ eng_df (session w') = eng_df (session w)
    /\ kor_df (session w') = kor_df (session w)
    /\ kor_shifted (session w') = kor_shifted (session w).
Proof.
  intros Hinv. unfold section_download_delete.
  destruct (matched (session w)) as [final|] eqn:Em.
  - rewrite (Hinv final Em). simpl.
    destruct click.
    + exists w. repeat split; try reflexivity. exact Hinv.
    + exists w. repeat split; try reflexivity. exact Hinv.
    + exists (section_delete w). repeat split; try reflexivity.
      intros f Hf. discriminate Hf.
  - exists w. repeat split; try reflexivity. exact Hinv.
Qed.

Lemma section_run_matching_ok w :
  exists w',
    section_run_matching w = inr w'
    /\ (forall ks, kor_shifted (session w) = Some ks ->
          exists run,
            automatic_matching (eng_df (session w)) ks = ret run
            /\ matched (session w') = Some (run_final run)
            /\ csv_on_disk w' = Some (to_csv (run_final run)))
    /\ (kor_shifted (session w) = None -> w' = w)
    /\ eng_df (session w') = eng_df (session w)
    /\ kor_df (session w') = kor_df (session w)
    /\ kor_shifted (session w') = kor_shifted (session w).
Proof.
  unfold section_run_matching.
  destruct (kor_shifted (session w)) as [ks|] eqn:Ek.
  - destruct (run_facts (eng_df (session w)) ks) as (run & Hrun & _).
    rewrite Hrun. eexists. split; [reflexivity |]. simpl.
    split.
    { intros ks' Hks. injection Hks as <-. exists run. auto. }
    split; [discriminate |]. auto.
  - exists w. split; [reflexivity |].
    split; [intros ks Hks; discriminate Hks |]. auto.
Qed.

Lemma rerun_ok w click :
  file_matches_session w ->
  exists w',
    rerun w click = inr w'
    /\ file_matches_session w'
    /\ eng_df (session w') = eng_df (session w)
    /\ kor_df (session w') = kor_df (session w).
Proof.
  intros Hinv. unfold rerun. destruct click as [shift| |].
  - destruct (section_download_delete_ok
                {| session := apply_shift (session w) shift;
                   csv_on_disk := csv_on_disk w |} (ClickApplyShift shift))
      as (w' & Hw' & Hinv' & He & Hk & _).
    { intros f Hf. simpl in *. now apply Hinv. }
    exists w'. rewrite Hw'. auto.
  - destruct (section_run_matching_ok w) as (w2 & Hw2 & Hsome & Hnone & He & Hk & Hs).
    rewrite Hw2.
    destruct (section_download_delete_ok w2 ClickRunMatching)
      as (w' & Hw' & Hinv' & He' & Hk' & _).
    { destruct (kor_shifted (session w)) as [ks|] eqn:Eks.
      - destruct (Hsome ks eq_refl) as (run & _ & Hm & Hc).
        intros f Hf. rewrite Hm in Hf. injection Hf as <-. exact Hc.
      - now rewrite (Hnone eq_refl). }
    exists w'. rewrite Hw'. repeat split; try assumption; congruence.
  - destruct (section_download_delete_ok w ClickDelete)
      as (w' & Hw' & Hinv' & He & Hk & _); [exact Hinv |].
    exists w'. rewrite Hw'. auto.
Qed.

End StoredResult.

Lemma reruns_ok (w : World) (clicks : list Click) :
  file_matches_session w ->
  exists w',
    reruns w clicks = inr w'
    /\ file_matches_session w'
    /\ eng_df (session w') = eng_df (session w)
    /\ kor_df (session w') = kor_df (session w).
Proof.
  revert w. induction clicks as [|click rest IH]; intros w Hinv; simpl.
  - exists w. auto.
  - destruct (rerun_ok w click Hinv) as (w1 & Hw1 & Hinv1 & He1 & Hk1).
    rewrite Hw1. destruct (IH w1 Hinv1) as (w' & Hw' & Hinv' & He & Hk).
    exists w'. repeat split; try assumption; congruence.
Qed.




(** X15. The delete button clears the result and its file and nothing
    else: from a state where the stored result has its CSV on disk, the
    press leaves no stored result and no file, keeps the two tracks and the
    shifted track, and a second press changes nothing. *)
Theorem delete_clears_result_and_file (w : World) (final : list FinalRow)
    (Hinv : file_matches_session w)
    (Hstored : matched (session w) = Some final) :
  exists w',
    rerun w ClickDelete = inr w'
    /\ matched (session w') = None
    /\ csv_on_disk w' = None
    /\ eng_df (session w') = eng_df (session w)
    /\ kor_df (session w') = kor_df (session w)
    /\ kor_shifted (session w') = kor_shifted (session w)
    /\ rerun w' ClickDelete = inr w'.
Proof.
  unfold rerun, section_download_delete. rewrite Hstored, (Hinv final Hstored).
  simpl. eexists. split; [reflexivity |].
  unfold section_delete. rewrite (Hinv final Hstored). simpl.
  repeat split; reflexivity.
Qed.

Lemma delete_clears_result_and_file_witness :
  let final := [(py "A", Some (py "a"))] in
  let w := {| session := {| eng_df := [mkRow 0 900000000 (py "A")];
                            kor_df := [mkRow 300000000 3000000000 (py "a")];
                            kor_shifted := Some [mkRow 300000000 3000000000 (py "a")];
                            matched := Some final |};
              csv_on_disk := Some (to_csv final) |} in
  exists w',
    rerun w ClickDelete = inr w'
    /\ matched (session w') = None
    /\ csv_on_disk w' = None.
Proof.
  intros final w.
  destruct (delete_clears_result_and_file w final) as (w' & H1 & H2 & H3 & _).
  - intros f Hf. injection Hf as <-. reflexivity.
  - reflexivity.
  - exists w'. auto.
Defined.

(** X16. What can be downloaded is the matching against the last shift:
    after any presses that end with the shift button, for an offset
    [shift], and then the matching button, the stored result is the final
    frame of matching the English track with the Korean track shifted by
    [shift], and the file holds its CSV. *)
Theorem download_is_last_shift_matching (w : World) (clicks : list Click)
    (shift : Timedelta)
    (Hinv : file_matches_session w) :
  exists w' run,
    reruns w (clicks ++ [ClickApplyShift shift; ClickRunMatching]) = inr w'
    /\ automatic_matching (eng_df (session w))
         (shifted (kor_df (session w)) shift) = ret run
    /\ matched (session w') = Some (run_final run)
    /\ csv_on_disk w' = Some (to_csv (run_final run)).
Proof.
  assert (Happ : forall cs w0 w1 cs',
            reruns w0 cs = inr w1 -> reruns w0 (cs ++ cs') = reruns w1 cs').
  { induction cs as [|c cs IH]; intros w0 w1 cs' H; simpl in *.
    - injection H as <-. reflexivity.
    - destruct (rerun w0 c) as [e|w2]; [discriminate |]. now apply IH. }
  destruct (reruns_ok w clicks Hinv)
    as (w1 & Hw1 & Hinv1 & He1 & Hk1).
  rewrite (Happ _ _ _ _ Hw1). simpl.
  destruct (rerun_ok w1 (ClickApplyShift shift) Hinv1) as (w2 & Hw2 & Hinv2 & _).
  rewrite Hw2.
  assert (Hw2eq : w2 = {| session := apply_shift (session w1) shift;
                          csv_on_disk := csv_on_disk w1 |}).
  { unfold rerun, section_download_delete in Hw2. simpl in Hw2.
    destruct (matched (session w1)) as [f|] eqn:Em.
    - rewrite (Hinv1 f Em) in Hw2 |- *. simpl in Hw2. now injection Hw2 as <-.
    - now injection Hw2 as <-. }
  unfold rerun.
  destruct (section_run_matching_ok w2) as (w3 & Hw3 & Hsome & _).
  rewrite Hw3.
  destruct (Hsome (shifted (kor_df (session w1)) shift)) as (run & Hrun & Hm & Hc).
  { rewrite Hw2eq. reflexivity. }
  unfold section_download_delete. rewrite Hm, Hc. simpl.
  exists w3, run. split; [reflexivity |].
  rewrite Hw2eq in Hrun. simpl in Hrun. rewrite He1, Hk1 in Hrun.
  auto.
Qed.

Lemma download_is_last_shift_matching_witness :
  let w := {| session := {| eng_df := [mkRow 0 900000000 (py "A")];
                            kor_df := [mkRow 2300000000 3000000000 (py "a")];
                            kor_shifted := None;
                            matched := None |};
              csv_on_disk := None |} in
  exists w' run,
    reruns w ([ClickApplyShift 5000000000; ClickRunMatching; ClickDelete]
              ++ [ClickApplyShift 2000000000; ClickRunMatching]) = inr w'
    /\ matched (session w') = Some (run_final run)
    /\ run_final run = [(py "A", Some (py "a"))].
Proof.
  intros w.
  destruct (download_is_last_shift_matching w
              [ClickApplyShift 5000000000; ClickRunMatching; ClickDelete]
              2000000000)
    as (w' & run & Hw' & Hrun & Hm & _).
  - intros f Hf. discriminate Hf.
  - exists w', run. split; [exact Hw' |]. split; [exact Hm |].
    vm_compute in Hrun. injection Hrun as <-. reflexivity.
Defined.

(** X17. The file is opened before the delete button is looked at: with a
    result stored in the session and no file on disk, a press of the shift
    button or of the delete button ends the script with
    [FileNotFoundError], so the [except] of the delete button is not
    reached; a press of the matching button, once a shifted track is
    there, writes the file again and the script runs to its end. *)
Theorem missing_file_stops_script (w : World) (final : list FinalRow)
    (Hstored : matched (session w) = Some final)
    (Hmissing : csv_on_disk w = None) :
  (forall shift,
      rerun w (ClickApplyShift shift) = inl (UncaughtOS FileNotFoundError))
  /\ rerun w ClickDelete = inl (UncaughtOS FileNotFoundError)
  /\ (kor_shifted (session w) = None ->
      rerun w ClickRunMatching = inl (UncaughtOS FileNotFoundError))
  /\ (forall ks, kor_shifted (session w) = Some ks ->
        exists w', rerun w ClickRunMatching = inr w'
                   /\ file_matches_session w'
                   /\ csv_on_disk w' <> None).
Proof.
  unfold rerun, section_download_delete.
  split; [| split; [| split]].
  - intros shift. simpl. now rewrite Hstored, Hmissing.
  - now rewrite Hstored, Hmissing.
  - intros Hk. unfold section_run_matching. rewrite Hk.
    now rewrite Hstored, Hmissing.
  - intros ks Hk.
    destruct (section_run_matching_ok w) as (w2 & Hw2 & Hsome & _).
    rewrite Hw2. destruct (Hsome ks Hk) as (run & _ & Hm & Hc).
    rewrite Hm, Hc. simpl. exists w2. split; [reflexivity |].
    split; [| rewrite Hc; discriminate].
    intros f Hf. rewrite Hm in Hf. injection Hf as <-. exact Hc.
Qed.

Lemma missing_file_stops_script_witness :
  let w := {| session := {| eng_df := [mkRow 0 900000000 (py "A")];
                            kor_df := [mkRow 300000000 3000000000 (py "a")];
                            kor_shifted := Some [mkRow 300000000 3000000000 (py "a")];
                            matched := Some [(py "A", Some (py "a"))] |};
              csv_on_disk := None |} in
  rerun w ClickDelete = inl (UncaughtOS FileNotFoundError).
Proof.
  intros w.
  apply (missing_file_stops_script w [(py "A", Some (py "a"))]); reflexivity.
Defined.

(** X18. What the shift decides: after a shift of the Korean track by
    [shift], the reference row [r] comes out with a missing comparison text
    exactly when every row [c] of the unshifted Korean track has
    [|c.start - shift - r.start|] above one second; a row exactly one
    second away still matches. *)
Theorem shift_decides_missing_text (ref kor : DataFrame) (shift : Timedelta)
    (i : nat) (r : Row)
    (Hr : nth_error (sort_values ref) i = Some r) :
  exists run,
    automatic_matching ref (shifted kor shift) = ret run
    /\ (nth_error (run_matched_pairs run) i = Some (text r, None)
        <-> forall c, In c kor ->
                      tolerance_1s < Z.abs (start_time c - shift - start_time r)).
Proof.
  destruct (run_facts ref (shifted kor shift))
    as (run & Hrun & He2 & Hk2 & Hidx & Hpair & _).
  exists run. split; [exact Hrun |].
  rewrite <- He2 in Hr.
  set (m := nearest_at (map start_time (run_k2 run)) tolerance_1s (start_time r)).
  assert (Hm : nth_error (right_indexer run) i = Some m).
  { rewrite Hidx, nth_error_map, Hr. reflexivity. }
  assert (Hk : StronglySorted Z.le (map start_time (run_k2 run)))
    by (rewrite Hk2; apply sort_values_sorted).
  assert (Hin : forall c', In c' (run_k2 run)
                           <-> exists c, In c kor /\ c' = shift_start shift c).
  { intros c'. rewrite Hk2. split.
    - intros H. apply (Permutation_in _ (sort_values_perm _)) in H.
      unfold shifted in H. apply in_map_iff in H as (c & <- & Hc). eauto.
    - intros (c & Hc & ->).
      apply (Permutation_in _ (Permutation_sym (sort_values_perm _))).
      unfold shifted. now apply in_map. }
  rewrite (Hpair i r Hr m Hm). split.
  - intros Hnone c Hc.
    assert (Hm1 : m = -1).
    { destruct (nearest_at_range (map start_time (run_k2 run)) tolerance_1s
                  (start_time r)) as [Hn | Hn]; fold m in Hn; [exact Hn |].
      destruct (take_right_in_range (run_k2 run) m Hn) as (c1 & Ht & _).
      rewrite Ht in Hnone. discriminate Hnone. }
    assert (Hc' : In (shift_start shift c) (run_k2 run)) by (apply Hin; eauto).
    apply In_nth_error in Hc' as (j & Hj).
    destruct (get_start_time (run_k2 run) j _ Hj) as [Hg Hjr].
    pose proof (nearest_at_none (map start_time (run_k2 run)) Hk tolerance_1s
                  tolerance_1s_nonneg (start_time r) (Z.of_nat j) Hm1 Hjr) as Hn.
    rewrite Hg in Hn. exact Hn.
  - intros Hfar.
    destruct (Z.eq_dec m (-1)) as [-> | Hne]; [reflexivity | exfalso].
    destruct (nearest_at_range (map start_time (run_k2 run)) tolerance_1s
                (start_time r)) as [Hn | Hn]; fold m in Hn; [contradiction |].
    destruct (take_right_in_range (run_k2 run) m Hn) as (c1 & _ & Hnth & Hget).
    pose proof (nearest_at_closest (map start_time (run_k2 run)) Hk tolerance_1s
                  tolerance_1s_nonneg (start_time r) m) as Hc.
    fold m in Hc. specialize (Hc Hne Hn). cbv zeta in Hc. rewrite Hget in Hc.
    destruct (proj1 (Hin c1) (nth_error_In _ _ Hnth)) as (c & Hc0 & ->).
    specialize (Hfar c Hc0). simpl in Hc. lia.
Qed.

Lemma shift_decides_missing_text_witness :
  let ref := [mkRow 5000000000 5900000000 (py "B")] in
  let kor := [mkRow 8000000000 9000000000 (py "b")] in
  exists run,
    automatic_matching ref (shifted kor 2000000000) = ret run
    /\ run_matched_pairs run = [(py "B", Some (py "b"))].
Proof.
  intros ref kor.
  destruct (shift_decides_missing_text ref kor 2000000000 0
              (mkRow 5000000000 5900000000 (py "B")) eq_refl)
    as (run & Hrun & _).
  exists run. split; [exact Hrun |].
  vm_compute in Hrun. injection Hrun as <-. reflexivity.
Defined.

Lemma strictly_sorted_sorted l :
  StronglySorted Z.lt l -> StronglySorted Z.le l /\ NoDup l.
Proof.
  induction 1 as [|a l Hs [IHs IHn] Hall]; [split; constructor |].
  split.
  - constructor; [exact IHs |].
    eapply Forall_impl; [| exact Hall]. simpl. intros; lia.
  - constructor; [| exact IHn].
    intros Hin. rewrite Forall_forall in Hall. specialize (Hall a Hin). lia.
Qed.

(** X19. A track strictly ascending in start time is the only ascending
    arrangement of its rows: sorting any rearrangement of its rows gives
    the track back, and the sort leaves the track itself as it is. *)
Theorem sort_values_on_sorted (df df' : DataFrame)
    (Hstrict : StronglySorted Z.lt (map start_time df))
    (Hperm : Permutation df df') :
  sort_values df' = df /\ sort_values df = df.
Proof.
  destruct (strictly_sorted_sorted _ Hstrict) as [Hle Hnd].
  assert (H : forall l, Permutation df l -> sort_values l = df).
  { intros l Hp. symmetry. apply sorted_perm_unique.
    - exact Hnd.
    - rewrite Hp. apply Permutation_sym, sort_values_perm.
    - exact Hle.
    - apply sort_values_sorted. }
  split; [now apply H | apply H, Permutation_refl].
Qed.

Lemma sort_values_on_sorted_witness :
  sort_values [mkRow 5 6 (py "B"); mkRow 0 1 (py "A"); mkRow 7 9 (py "C")]
  = [mkRow 0 1 (py "A"); mkRow 5 6 (py "B"); mkRow 7 9 (py "C")].
Proof.
  apply (sort_values_on_sorted
           [mkRow 0 1 (py "A"); mkRow 5 6 (py "B"); mkRow 7 9 (py "C")]
           [mkRow 5 6 (py "B"); mkRow 0 1 (py "A"); mkRow 7 9 (py "C")]).
  - simpl. repeat constructor; lia.
  - apply perm_swap.
Defined.
